(** * pixel-camera: a shallow embedding of [pixelate.py]

    The script is a linear pipeline over an imaging library (Pillow), a
    video library (OpenCV) and an external encoder (ffmpeg).  The parts the
    script itself computes are embedded concretely:

    - Python numbers: [int] as [Z], [float] as IEEE binary64 through the
      [spec_float] operations of the Standard Library (precision 53,
      round to nearest even);
    - Python strings as [string], with [str.strip], [str.lstrip],
      slicing and [int(_, 16)] written out;
    - the file system, standard output, video decoder handles and temporary
      directories as an explicit [world], threaded through a state and
      exception monad.

    The imaging library is an interface ([Imaging]) whose functions are
    used by the script but not defined by it; its laws ([ImagingLaws]) are
    stated where a property depends on them, and a reference instance
    ([RefImaging]) on pixel grids shows they are satisfiable. *)

From Stdlib Require Import ZArith QArith Lia Bool List.
From Stdlib Require Import Floats.SpecFloat.
From Stdlib Require Import Strings.Ascii Strings.String.
From Stdlib Require Import Decimal DecimalString DecimalNat.
From stdpp Require Import base option list gmap strings.

Local Open Scope Z_scope.

(** ** Exceptions and results *)

(** The Python exception classes the script can meet. [LibraryError] stands
    for an error raised inside the imaging library for a reason the script
    does not control. *)
Inductive exn :=
| FileNotFoundError
| ValueError
| ZeroDivisionError
| OverflowError
| UnidentifiedImageError
| UnicodeDecodeError
| CalledProcessError
| LibraryError.

Inductive result (A : Type) :=
| Ok (a : A)
| Raise (e : exn).
Arguments Ok {A} a.
Arguments Raise {A} e.

Definition is_Ok {A} (r : result A) : bool :=
  match r with Ok _ => true | Raise _ => false end.

Definition rbind {A B} (r : result A) (k : A -> result B) : result B :=
  match r with Ok a => k a | Raise e => Raise e end.

(** ** Python floats (binary64) *)

Module PyFloat.

Definition prec : Z := 53.
Definition emax : Z := 1024.

Definition float := spec_float.

(** [float(z)] for a Python [int]: round to nearest even; an [int] beyond
    the binary64 range raises [OverflowError]. *)
Definition of_int (z : Z) : result float :=
  match binary_normalize prec emax z 0 false with
  | S754_infinity _ => Raise OverflowError
  | f => Ok f
  end.

(** [a / b] on two Python [int]s: the correctly rounded quotient. *)
Definition truediv (a b : Z) : result float :=
  if b =? 0 then Raise ZeroDivisionError
  else if a =? 0 then Ok (S754_zero (b <? 0))
  else
    let '(q, e, l) := SFdiv_core_binary prec emax (Z.abs a) 0 (Z.abs b) 0 in
    match binary_round_aux prec emax (xorb (a <? 0) (b <? 0)) q e l with
    | S754_infinity _ => Raise OverflowError
    | f => Ok f
    end.

Definition mul (x y : float) : float := SFmul prec emax x y.

(** [n * x] for an [int] n and a [float] x: n is converted first. *)
Definition int_mul (n : Z) (x : float) : result float :=
  rbind (of_int n) (fun fn => Ok (mul fn x)).

(** [int(x)]: truncation toward zero. *)
Definition to_int (x : float) : result Z :=
  match x with
  | S754_nan => Raise ValueError
  | S754_infinity _ => Raise OverflowError
  | S754_zero _ => Ok 0
  | S754_finite s m e =>
      Ok (cond_Zopp s (if 0 <=? e then Z.shiftl (Zpos m) e
                       else Z.shiftr (Zpos m) (- e)))
  end.

Definition eqb (x y : float) : bool := SFeqb x y.
Definition ltb (x y : float) : bool := SFltb x y.

(** The literal [1.0]. *)
Definition one : float := S754_finite false 4503599627370496 (-52).

(** The literal [0.0]. *)
Definition zero : float := S754_zero false.

End PyFloat.

(** ** Python numbers that are an [int] or a [float] *)

Inductive pynum :=
| PyInt (z : Z)
| PyFloat (f : PyFloat.float).

(** Python compares an [int] with a [float] by value, without rounding the
    [int]. *)
Definition int_float_compare (z : Z) (f : PyFloat.float) : option comparison :=
  match f with
  | S754_nan => None
  | S754_infinity s => Some (if s then Gt else Lt)
  | S754_zero _ => Some (z ?= 0)
  | S754_finite s m e =>
      let v := cond_Zopp s (Zpos m) in
      Some (if 0 <=? e then z ?= v * 2 ^ e else z * 2 ^ (- e) ?= v)
  end.

Definition num_compare (a b : pynum) : option comparison :=
  match a, b with
  | PyInt x, PyInt y => Some (x ?= y)
  | PyInt x, PyFloat g => int_float_compare x g
  | PyFloat f, PyInt y => option_map CompOpp (int_float_compare y f)
  | PyFloat f, PyFloat g => SFcompare f g
  end.

(** [a > b] *)
Definition num_gt (a b : pynum) : bool :=
  match num_compare a b with Some Gt => true | _ => false end.

(** [a <= b] *)
Definition num_le (a b : pynum) : bool :=
  match num_compare a b with Some (Lt | Eq) => true | _ => false end.

Definition is_nan (a : pynum) : bool :=
  match a with PyFloat S754_nan => true | _ => false end.

(** ** Python strings *)

Module PyStr.

Local Open Scope string_scope.
Local Open Scope Z_scope.

(** [str.isspace] on one ASCII character: TAB, LF, VT, FF, CR, the four
    separators FS, GS, RS, US and the space.  Text is taken to be ASCII;
    a code above 127 is treated as an ordinary character. *)
Definition is_space (c : ascii) : bool :=
  let n := Z.of_nat (nat_of_ascii c) in
  ((9 <=? n) && (n <=? 13)) || ((28 <=? n) && (n <=? 32)).

Fixpoint lstrip (s : string) : string :=
  match s with
  | String c r => if is_space c then lstrip r else s
  | EmptyString => EmptyString
  end.

Fixpoint rstrip (s : string) : string :=
  match s with
  | String c r =>
      match rstrip r with
      | EmptyString => if is_space c then EmptyString else String c EmptyString
      | r' => String c r'
      end
  | EmptyString => EmptyString
  end.

(** [s.strip()] *)
Definition strip (s : string) : string := rstrip (lstrip s).

(** [s.startswith(c)] for a one-character prefix. *)
Definition startswith (c : ascii) (s : string) : bool :=
  match s with
  | String d _ => bool_decide (c = d)
  | EmptyString => false
  end.

(** [s.lstrip(c)]: every leading occurrence of [c] is removed. *)
Fixpoint lstrip_char (c : ascii) (s : string) : string :=
  match s with
  | String d r => if bool_decide (c = d) then lstrip_char c r else s
  | EmptyString => EmptyString
  end.

(** [s[i:j]] for [0 <= i <= j]; out-of-range bounds are clamped. *)
Definition slice (i j : nat) (s : string) : string := substring i (j - i) s.

(** The value of a digit in a base up to 36; here only base 16 is used. *)
Definition digit_value (c : ascii) : option Z :=
  let n := Z.of_nat (nat_of_ascii c) in
  if (48 <=? n) && (n <=? 57) then Some (n - 48)
  else if (97 <=? n) && (n <=? 122) then Some (n - 87)
  else if (65 <=? n) && (n <=? 90) then Some (n - 55)
  else None.

Definition hex_digit (c : ascii) : option Z :=
  match digit_value c with
  | Some v => if v <? 16 then Some v else None
  | None => None
  end.


Definition parse_sign (s : string) : bool * string :=
  match s with
  | String "+" r => (false, r)
  | String "-" r => (true, r)
  | _ => (false, s)
  end.

(** An optional [0x] or [0X] prefix, and one underscore after it. *)
Definition skip_prefix16 (s : string) : string :=
  match s with
  | String "0" (String x r) =>
      if bool_decide (x = "x"%char) || bool_decide (x = "X"%char) then
        match r with
        | String "_" r' => r'
        | _ => r
        end
      else s
  | _ => s
  end.

(** The digit scanner: hex digits with single underscores between them.
    [prev_us] tells whether the previous character was an underscore; the
    result is the value, the number of digits and the rest, or [None] for a
    doubled or trailing underscore. *)
Fixpoint scan_digits16 (prev_us : bool) (acc : Z) (n : nat) (s : string)
  : option (Z * nat * string) :=
  match s with
  | String c r =>
      if bool_decide (c = "_"%char) then
        if prev_us then None else scan_digits16 true acc n r
      else
        match hex_digit c with
        | Some v => scan_digits16 false (16 * acc + v) (S n) r
        | None => if prev_us then None else Some (acc, n, s)
        end
  | EmptyString => if prev_us then None else Some (acc, n, s)
  end.

(** [int(s, 16)] *)
Definition int16 (s : string) : result Z :=
  let '(neg, s1) := parse_sign (lstrip s) in
  let s2 := skip_prefix16 s1 in
  if startswith "_" s2 then Raise ValueError
  else
    match scan_digits16 false 0 0 s2 with
    | Some (v, S _, rest) =>
        match lstrip rest with
        | EmptyString => Ok (if neg then - v else v)
        | _ => Raise ValueError
        end
    | _ => Raise ValueError
    end.

(** The characters [\n] and [\r]. *)
Definition LF : ascii := ascii_of_nat 10.
Definition CR : ascii := ascii_of_nat 13.

(** Universal newlines of text mode: [\r\n] and a lone [\r] are read as
    [\n]. *)
Fixpoint translate_newlines (s : string) : string :=
  match s with
  | String c r =>
      if bool_decide (c = CR) then
        match r with
        | String d r' =>
            if bool_decide (d = LF) then String LF (translate_newlines r')
            else String LF (translate_newlines r)
        | EmptyString => String LF EmptyString
        end
      else String c (translate_newlines r)
  | EmptyString => EmptyString
  end.

(** The lines of a text, each with its terminating [\n] (the last line may
    lack it), as iteration over a file object yields them. *)
Fixpoint split_lines (s : string) : list string :=
  match s with
  | String c r =>
      if bool_decide (c = LF) then String c EmptyString :: split_lines r
      else
        match split_lines r with
        | l :: ls => String c l :: ls
        | [] => [String c EmptyString]
        end
  | EmptyString => []
  end.

Definition readlines (content : string) : list string :=
  split_lines (translate_newlines content).

End PyStr.

(** ** The palette loader: the body of the [for line in file] loop *)

Definition color : Type := Z * Z * Z.

(** [line = line.strip(); if line.startswith('#'): line = line.lstrip('#')] *)
Definition palette_token (line : string) : string :=
  let line := PyStr.strip line in
  if PyStr.startswith "#" line then PyStr.lstrip_char "#" line else line.

(** [tuple(int(line[i:i+2], 16) for i in (0, 2, 4))] *)
Definition parse_token (tok : string) : result color :=
  rbind (PyStr.int16 (PyStr.slice 0 2 tok)) (fun r =>
  rbind (PyStr.int16 (PyStr.slice 2 4 tok)) (fun g =>
  rbind (PyStr.int16 (PyStr.slice 4 6 tok)) (fun b =>
  Ok (r, g, b)))).

Definition parse_line (line : string) : result color :=
  parse_token (palette_token line).

(** The loop: colors are appended in order; the first line that fails to
    parse raises and ends the loop. *)
Fixpoint parse_lines (lines : list string) (palette : list color)
  : result (list color) :=
  match lines with
  | [] => Ok palette
  | line :: rest =>
      rbind (parse_line line) (fun rgb => parse_lines rest (palette ++ [rgb]))
  end.

(** [[color for rgb in palette for color in rgb]] *)
Definition flatten_palette (palette : list color) : list Z :=
  concat (map (fun '(r, g, b) => [r; g; b]) palette).

(** A color whose three components are bytes. *)
Definition byte_color (c : color) : Prop :=
  let '(r, g, b) := c in
  (0 <= r <= 255) /\ (0 <= g <= 255) /\ (0 <= b <= 255).

(** ** The imaging library (Pillow, and the two OpenCV image functions)

    The script calls these functions and defines none of them, so they are
    an interface.  An [image] is an in-memory raster in whatever mode the
    library holds it (full color or indexed). *)

Class Imaging := {
  image : Type;
  (** [image.size], as (width, height) *)
  image_size : image -> Z * Z;
  (** [image.convert("RGB")] *)
  convert_rgb : image -> image;
  (** [ImageEnhance.Brightness(image).enhance(factor)] *)
  enhance_brightness : PyFloat.float -> image -> image;
  (** [ImageEnhance.Contrast(image).enhance(factor)] *)
  enhance_contrast : PyFloat.float -> image -> image;
  (** [image.resize((w, h), resample=Image.NEAREST)] *)
  resize_nearest : Z * Z -> image -> result image;
  (** [putpalette] of the flattened colors on a fresh "P" image, then
      [image.quantize(palette=palette_image, dither=Image.NONE)] *)
  quantize_palette : list Z -> image -> result image;
  (** [image.quantize(colors=n, method=Image.MEDIANCUT, dither=Image.NONE)] *)
  quantize_mediancut : Z -> image -> result image;
  (** [cv2.cvtColor(frame, cv2.COLOR_BGR2RGB)], seen on the picture that
      [cv2.imwrite] then stores *)
  cvt_bgr2rgb : image -> image;
}.

(** What the script relies on: sizes. *)
Class ImagingLaws `{Imaging} : Prop := {
  size_convert_rgb : forall i, image_size (convert_rgb i) = image_size i;
  size_enhance_brightness : forall f i, image_size (enhance_brightness f i) = image_size i;
  size_enhance_contrast : forall f i, image_size (enhance_contrast f i) = image_size i;
  size_cvt_bgr2rgb : forall i, image_size (cvt_bgr2rgb i) = image_size i;
  resize_nearest_size : forall sz i i',
    resize_nearest sz i = Ok i' -> image_size i' = sz;
  resize_nearest_total : forall w h i,
    0 < fst (image_size i) -> 0 < snd (image_size i) -> 0 < w -> 0 < h ->
    is_Ok (resize_nearest (w, h) i) = true;
  quantize_palette_size : forall pal i i',
    quantize_palette pal i = Ok i' -> image_size i' = image_size i;
  quantize_palette_total : forall palette i,
    palette <> [] -> (length palette <= 256)%nat ->
    Forall byte_color palette ->
    is_Ok (quantize_palette (flatten_palette palette) i) = true;
  quantize_mediancut_size : forall n i i',
    quantize_mediancut n i = Ok i' -> image_size i' = image_size i;
  quantize_mediancut_total : forall n i,
    1 <= n <= 256 -> is_Ok (quantize_mediancut n i) = true;
}.

(** What idempotence of the pipeline relies on: nearest-neighbor
    enlargement by an integer factor is undone by nearest-neighbor
    reduction, sampling commutes with the change of mode, and mapping to a
    palette leaves an image already made of palette colors alone.
    [well_formed] singles out the rasters whose pixel data fit their
    size. *)
Class ImagingRoundTrip `{Imaging} : Type := {
  well_formed : image -> Prop;
  well_formed_convert_rgb : forall i, well_formed i -> well_formed (convert_rgb i);
  well_formed_resize : forall sz i i',
    well_formed i -> resize_nearest sz i = Ok i' -> well_formed i';
  well_formed_quantize : forall pal i i',
    well_formed i -> quantize_palette pal i = Ok i' -> well_formed i';
  resize_convert_rgb : forall sz i i',
    resize_nearest sz i = Ok i' ->
    resize_nearest sz (convert_rgb i) = Ok (convert_rgb i');
  resize_down_up : forall w h s q e,
    well_formed q -> image_size q = (w, h) -> 0 < w -> 0 < h -> 0 < s ->
    resize_nearest (w * s, h * s) q = Ok e ->
    resize_nearest (w, h) e = Ok q;
  quantize_palette_fixed : forall pal i q,
    well_formed i -> quantize_palette pal i = Ok q ->
    quantize_palette pal (convert_rgb q) = Ok q;
}.

(** ** The world: files, standard output, decoder handles, processes *)

Section World.
Context `{lib : Imaging}.

Inductive file :=
| TextFile (content : string)
| ImageFile (img : image)
| VideoFile (fps : PyFloat.float) (frames : list image).

(** A line written by [print]. *)
Inductive output_line :=
| PaletteNotFound (path : string)
| FpsReport (detected : PyFloat.float) (used : pynum).

(** A [cv2.VideoCapture] object: open on a stream, created without a
    stream (the path is not a video), or released. *)
Inductive handle_state :=
| HandleOpen
| HandleUnopened
| HandleReleased.

(** An argument of a command line; [ArgNum n] is [str(n)]. *)
Inductive arg :=
| ArgStr (s : string)
| ArgNum (n : pynum).

Record world := {
  files : gmap string file;
  stdout : list output_line;
  handles : list handle_state;
  temp_dirs : gset string;
  next_temp : nat;
  commands : list (list arg);
}.

(** The exit status of an external process and the files it leaves. *)
Class Subprocess := {
  run_process : list arg -> gmap string file -> Z * gmap string file;
}.

(** ** The state and exception monad *)

Definition M (A : Type) : Type := world -> result A * world.

Definition ret {A} (a : A) : M A := fun w => (Ok a, w).

Definition raise {A} (e : exn) : M A := fun w => (Raise e, w).

Definition bind {A B} (m : M A) (k : A -> M B) : M B :=
  fun w =>
    match m w with
    | (Ok a, w') => k a w'
    | (Raise e, w') => (Raise e, w')
    end.

Definition lift {A} (r : result A) : M A := fun w => (r, w).

End World.

Declare Scope py_scope.
Delimit Scope py_scope with py.
Notation "'let*' x ':=' m 'in' k" := (bind m (fun x => k))
  (at level 10, x name, m at level 100, k at level 200) : py_scope.

Section Program.
Context `{lib : Imaging} `{sub : !Subprocess}.

Local Open Scope py_scope.
Local Open Scope string_scope.

Definition set_files (f : gmap string file) (w : world) : world :=
  {| files := f; stdout := stdout w; handles := handles w;
     temp_dirs := temp_dirs w; next_temp := next_temp w;
     commands := commands w |}.

Definition set_handles (h : list handle_state) (w : world) : world :=
  {| files := files w; stdout := stdout w; handles := h;
     temp_dirs := temp_dirs w; next_temp := next_temp w;
     commands := commands w |}.

(** [print(...)] *)
Definition print (l : output_line) : M unit :=
  fun w =>
    (Ok tt,
     {| files := files w; stdout := stdout w ++ [l]; handles := handles w;
        temp_dirs := temp_dirs w; next_temp := next_temp w;
        commands := commands w |}).

(** [open(path, 'r')] and reading it whole as text. *)
Definition open_text (path : string) : M string :=
  fun w =>
    match files w !! path with
    | None => (Raise FileNotFoundError, w)
    | Some (TextFile content) => (Ok content, w)
    | Some _ => (Raise UnicodeDecodeError, w)
    end.

(** [Image.open(path).convert("RGB")] *)
Definition image_open (path : string) : M image :=
  fun w =>
    match files w !! path with
    | None => (Raise FileNotFoundError, w)
    | Some (ImageFile img) => (Ok (convert_rgb img), w)
    | Some _ => (Raise UnidentifiedImageError, w)
    end.

(** [image.save(path, format="PNG")] and [cv2.imwrite(path, frame)]: PNG is
    lossless, the file holds the image. *)
Definition image_save (path : string) (img : image) : M unit :=
  fun w => (Ok tt, set_files (<[path := ImageFile img]> (files w)) w).

(** *** [load_palette_from_file] *)

Definition load_palette_from_file (palette_file_path : string)
  : M (option (list color)) :=
  fun w =>
    match open_text palette_file_path w with
    | (Ok content, w1) =>
        match parse_lines (PyStr.readlines content) [] with
        | Ok palette => (Ok (Some palette), w1)
        | Raise e => (Raise e, w1)
        end
    | (Raise FileNotFoundError, w1) =>
        (let* _ := print (PaletteNotFound palette_file_path) in ret None) w1
    | (Raise e, w1) => (Raise e, w1)
    end.

(** *** [pixelate_image] *)

Record params := {
  target_width : Z;
  palette_size : Z;
  pixel_scale : Z;
  brightness_factor : PyFloat.float;
  contrast_factor : PyFloat.float;
  palette_file : option string;
}.

(** The brightness and contrast steps. *)
Definition adjust (p : params) (img : image) : image :=
  let img :=
    if negb (PyFloat.eqb (brightness_factor p) PyFloat.one)
    then enhance_brightness (brightness_factor p) img else img in
  if negb (PyFloat.eqb (contrast_factor p) PyFloat.one)
  then enhance_contrast (contrast_factor p) img else img.

(** [int(target_width * (original_height / original_width))] *)
Definition target_height_of (target_width original_width original_height : Z)
  : result Z :=
  rbind (PyFloat.truediv original_height original_width) (fun aspect_ratio =>
  rbind (PyFloat.int_mul target_width aspect_ratio) PyFloat.to_int).

(** Truth value of the [palette_file] argument: [None] and the empty string
    are false. *)
Definition truthy_path (pf : option string) : option string :=
  match pf with
  | Some EmptyString => None
  | other => other
  end.

(** The quantization step. *)
Definition quantize_step (p : params) (img : image) : M image :=
  match truthy_path (palette_file p) with
  | Some path =>
      let* palette := load_palette_from_file path in
      match palette with
      | Some (c :: cs) => lift (quantize_palette (flatten_palette (c :: cs)) img)
      | _ => lift (quantize_mediancut (palette_size p) img)
      end
  | None => lift (quantize_mediancut (palette_size p) img)
  end.

Definition pixelate_image (input_path output_path : string) (p : params)
  : M unit :=
  let* img := image_open input_path in
  let img := adjust p img in
  let '(original_width, original_height) := image_size img in
  let* target_height :=
    lift (target_height_of (target_width p) original_width original_height) in
  let* img := lift (resize_nearest (target_width p, target_height) img) in
  let* img := quantize_step p img in
  let enlarged_width := target_width p * pixel_scale p in
  let enlarged_height := target_height * pixel_scale p in
  let* img := lift (resize_nearest (enlarged_width, enlarged_height) img) in
  image_save output_path img.

(** *** [find_framerate] and the decoder *)

(** [cv2.VideoCapture(path)]: a new handle, with the frame rate the stream
    declares and the frames [read] will return before it first fails.  A
    path that is not a video gives a handle without a stream, frame rate
    [0.0] and no frame. *)
Definition capture_open (path : string)
  : M (nat * PyFloat.float * list image) :=
  fun w =>
    let h := length (handles w) in
    match files w !! path with
    | Some (VideoFile fps frames) =>
        (Ok (h, fps, frames), set_handles (handles w ++ [HandleOpen]) w)
    | _ =>
        (Ok (h, PyFloat.zero, []), set_handles (handles w ++ [HandleUnopened]) w)
    end.

(** [video.release()] *)
Definition capture_release (h : nat) : M unit :=
  fun w => (Ok tt, set_handles (<[h := HandleReleased]> (handles w)) w).

Definition find_framerate (input_path : string) : M PyFloat.float :=
  let* opened := capture_open input_path in
  ret (snd (fst opened)).

(** *** Temporary directories *)

(** [f"{n:05d}"] *)
Definition format_05d (n : nat) : string :=
  let d := Nat.to_uint n in
  NilEmpty.string_of_uint (Nat.iter (5 - Decimal.nb_digits d) Decimal.D0 d).

(** [os.path.join(dir, name)] for a relative [name]. *)
Definition path_join (dir name : string) : string := dir ++ "/" ++ name.

Definition in_dir (dir path : string) : bool :=
  String.prefix (dir ++ "/") path.

Definition temp_dir_name (n : nat) : string :=
  "/tmp/tmp" ++ NilEmpty.string_of_uint (Nat.to_uint n).

(** [with TemporaryDirectory() as temp_dir: body]: the directory is
    created, and removed with everything in it when the body ends, whether
    it returns or raises. *)
Definition with_temporary_directory {A} (body : string -> M A) : M A :=
  fun w =>
    let temp_dir := temp_dir_name (next_temp w) in
    let w1 :=
      {| files := files w; stdout := stdout w; handles := handles w;
         temp_dirs := {[temp_dir]} ∪ temp_dirs w; next_temp := S (next_temp w);
         commands := commands w |} in
    let '(r, w2) := body temp_dir w1 in
    (r,
     {| files := filter (fun kv => negb (in_dir temp_dir kv.1) = true) (files w2);
        stdout := stdout w2; handles := handles w2;
        temp_dirs := temp_dirs w2 ∖ {[temp_dir]}; next_temp := next_temp w2;
        commands := commands w2 |}).

(** *** [pixelate_video] *)

Definition frame_path (temp_dir : string) (frame_count : nat) : string :=
  path_join temp_dir ("frame_" ++ format_05d frame_count ++ ".png").

Definition pixelated_path (temp_dir : string) (frame_count : nat) : string :=
  path_join temp_dir ("frame_" ++ format_05d frame_count ++ "_pixelated.png").

(** The [while True] loop, on the frames [video.read()] returns before its
    first failure; the result is the final [frame_count]. *)
Fixpoint frame_loop (temp_dir : string) (p : params) (frames : list image)
  (frame_count : nat) : M nat :=
  match frames with
  | [] => ret frame_count
  | frame :: rest =>
      let frame_rgb := cvt_bgr2rgb frame in
      let temp_image_path := frame_path temp_dir frame_count in
      let* _ := image_save temp_image_path frame_rgb in
      let output_image_path := pixelated_path temp_dir frame_count in
      let* _ := pixelate_image temp_image_path output_image_path p in
      frame_loop temp_dir p rest (S frame_count)
  end.

Definition ffmpeg_command (fps : pynum) (temp_dir output_path : string)
  : list arg :=
  [ArgStr "ffmpeg";
   ArgStr "-framerate"; ArgNum fps;
   ArgStr "-i"; ArgStr (path_join temp_dir "frame_%05d_pixelated.png");
   ArgStr "-c:v"; ArgStr "libx264";
   ArgStr "-pix_fmt"; ArgStr "yuv420p";
   ArgStr output_path].

(** [subprocess.run(command, check=True)] *)
Definition run_checked (command : list arg) : M unit :=
  fun w =>
    let '(status, f) := run_process command (files w) in
    let w' :=
      {| files := f; stdout := stdout w; handles := handles w;
         temp_dirs := temp_dirs w; next_temp := next_temp w;
         commands := commands w ++ [command] |} in
    if (status =? 0)%Z then (Ok tt, w') else (Raise CalledProcessError, w').

(** The frame rate handed to the encoder. *)
Definition effective_fps (fps : pynum) (detected_framerate : PyFloat.float)
  : pynum :=
  if num_gt fps (PyFloat detected_framerate) then PyFloat detected_framerate
  else fps.

Definition pixelate_video (input_path output_path : string) (p : params)
  (fps : pynum) : M unit :=
  let* detected_framerate := find_framerate input_path in
  let fps := effective_fps fps detected_framerate in
  let* _ := print (FpsReport detected_framerate fps) in
  with_temporary_directory (fun temp_dir =>
    let* opened := capture_open input_path in
    let video := fst (fst opened) in
    let frames := snd opened in
    let* frame_count := frame_loop temp_dir p frames 0 in
    let* _ := capture_release video in
    run_checked (ffmpeg_command fps temp_dir output_path)).

End Program.

(** ** A reference imaging library on pixel grids

    A small executable instance of [Imaging]: a raster is a list of rows of
    colors.  Indexed images are kept with their colors expanded, so the
    change of mode is the identity.  Nearest-neighbor sampling takes the
    source pixel under the center of each target pixel; mapping to a
    palette takes the entry at the least squared distance, the first one on
    a tie.  The automatic quantizer is a stand-in that keeps the first
    colors met in scan order: no property below depends on how a library
    chooses them. *)

Module RefImaging.

Record grid := {
  gw : nat;
  gh : nat;
  gpx : list (list color);
}.

Definition black : color := (0, 0, 0).

Definition pixel_at (g : grid) (x y : nat) : color :=
  default black (gpx g !! y ≫= fun row => row !! x).

(** The source index under the center of target index [i], from [n] source
    pixels to [m] target pixels. *)
Definition sample (n m i : nat) : nat := (((2 * i + 1) * n) / (2 * m))%nat.

Definition gsize (g : grid) : Z * Z := (Z.of_nat (gw g), Z.of_nat (gh g)).

Definition well_formed_grid (g : grid) : Prop :=
  length (gpx g) = gh g /\ Forall (fun row => length row = gw g) (gpx g).

Definition map_pixels (f : color -> color) (g : grid) : grid :=
  {| gw := gw g; gh := gh g; gpx := map (map f) (gpx g) |}.

Definition resize (sz : Z * Z) (g : grid) : result grid :=
  let '(w, h) := sz in
  if (w <=? 0) || (h <=? 0) || (gw g =? 0)%nat || (gh g =? 0)%nat
  then Raise ValueError
  else
    let w' := Z.to_nat w in
    let h' := Z.to_nat h in
    Ok {| gw := w'; gh := h';
          gpx := map (fun y =>
                   map (fun x => pixel_at g (sample (gw g) w' x) (sample (gh g) h' y))
                       (seq 0 w'))
                   (seq 0 h') |}.

Definition dist2 (a b : color) : Z :=
  let '(r1, g1, b1) := a in
  let '(r2, g2, b2) := b in
  (r1 - r2) * (r1 - r2) + (g1 - g2) * (g1 - g2) + (b1 - b2) * (b1 - b2).

Fixpoint nearest_from (best : color) (palette : list color) (c : color) : color :=
  match palette with
  | [] => best
  | p :: ps =>
      if dist2 p c <? dist2 best c then nearest_from p ps c
      else nearest_from best ps c
  end.

Definition nearest (palette : list color) (c : color) : color :=
  match palette with
  | [] => c
  | p :: ps => nearest_from p ps c
  end.

Fixpoint unflatten (flat : list Z) : list color :=
  match flat with
  | r :: g :: b :: rest => (r, g, b) :: unflatten rest
  | _ => []
  end.

Definition is_byte (v : Z) : bool := (0 <=? v) && (v <=? 255).

Definition quantize_to (flat : list Z) (g : grid) : result grid :=
  let palette := unflatten flat in
  match palette with
  | [] => Raise ValueError
  | _ =>
      if (256 <? length palette)%nat || negb (forallb is_byte flat)
      then Raise ValueError
      else Ok (map_pixels (nearest palette) g)
  end.

Definition first_colors (n : Z) (g : grid) : list color :=
  take (Z.to_nat n) (remove_dups (concat (gpx g))).

Definition quantize_auto (n : Z) (g : grid) : result grid :=
  if (n <? 1) || (256 <? n) then Raise ValueError
  else Ok (map_pixels (nearest (first_colors n g)) g).

Definition clamp_byte (v : Z) : Z := Z.max 0 (Z.min 255 v).

(** A channel scaled by a factor, truncated and clamped. *)
Definition scale_channel (f : PyFloat.float) (v : Z) : Z :=
  match rbind (PyFloat.int_mul v f) PyFloat.to_int with
  | Ok z => clamp_byte z
  | Raise _ => 0
  end.

Definition brighten (f : PyFloat.float) (g : grid) : grid :=
  map_pixels (fun '(r, g, b) => (scale_channel f r, scale_channel f g, scale_channel f b)) g.

(** Contrast around the middle gray. *)
Definition contrast_channel (f : PyFloat.float) (v : Z) : Z :=
  match rbind (PyFloat.int_mul (v - 128) f) PyFloat.to_int with
  | Ok z => clamp_byte (128 + z)
  | Raise _ => 128
  end.

Definition contrast (f : PyFloat.float) (g : grid) : grid :=
  map_pixels (fun '(r, g, b) =>
    (contrast_channel f r, contrast_channel f g, contrast_channel f b)) g.

Definition swap_channels (g : grid) : grid :=
  map_pixels (fun '(r, g, b) => (b, g, r)) g.

#[export] Instance imaging : Imaging := {|
  image := grid;
  image_size := gsize;
  convert_rgb := fun g => g;
  enhance_brightness := brighten;
  enhance_contrast := contrast;
  resize_nearest := resize;
  quantize_palette := quantize_to;
  quantize_mediancut := quantize_auto;
  cvt_bgr2rgb := swap_channels;
|}.

(** An encoder that always succeeds and writes the output as the video of
    nothing: enough to run the script to its end. *)
#[export] Instance encoder : Subprocess := {|
  run_process := fun command fs => (0, fs);
|}.

(** A grid of [w] by [h] pixels whose pixel at (x, y) is [f x y]. *)
Definition make_grid (w h : nat) (f : nat -> nat -> color) : grid :=
  {| gw := w; gh := h;
     gpx := map (fun y => map (fun x => f x y) (seq 0 w)) (seq 0 h) |}.

Definition empty_world : world :=
  {| files := ∅; stdout := []; handles := []; temp_dirs := ∅;
     next_temp := 0; commands := [] |}.

Definition world_with (fs : list (string * file)) : world :=
  set_files (list_to_map fs) empty_world.

End RefImaging.

(** ** Notions the properties are stated with *)

Section Notions.

Local Open Scope string_scope.
Local Open Scope Z_scope.

Fixpoint all_space (s : string) : bool :=
  match s with
  | String c r => PyStr.is_space c && all_space r
  | EmptyString => true
  end.

(** The color a token of exactly six hex digits [RRGGBB] denotes. *)
Definition hex6 (tok : string) : option color :=
  match tok with
  | String r1 (String r2 (String g1 (String g2 (String b1 (String b2 EmptyString))))) =>
      match PyStr.hex_digit r1, PyStr.hex_digit r2, PyStr.hex_digit g1,
            PyStr.hex_digit g2, PyStr.hex_digit b1, PyStr.hex_digit b2 with
      | Some x1, Some x2, Some y1, Some y2, Some z1, Some z2 =>
          Some (16 * x1 + x2, 16 * y1 + y2, 16 * z1 + z2)
      | _, _, _, _, _, _ => None
      end
  | _ => None
  end.

(** A line of a palette file that is a valid hex color token: [RRGGBB] or
    [#RRGGBB], with white space (the line end included) around it. *)
Definition valid_line (line : string) (rgb : color) : Prop :=
  exists pre tok post,
    all_space pre = true /\ all_space post = true /\ hex6 tok = Some rgb /\
    (line = pre ++ tok ++ post \/ line = pre ++ "#" ++ tok ++ post).



(** Python's [round(x)] on a float: to the nearest integer, ties to even. *)
Definition py_round (x : PyFloat.float) : result Z :=
  match x with
  | S754_nan => Raise ValueError
  | S754_infinity _ => Raise OverflowError
  | S754_zero _ => Ok 0
  | S754_finite s m e =>
      if 0 <=? e then Ok (cond_Zopp s (Zpos m * 2 ^ e))
      else
        let d := 2 ^ (- e) in
        let q := Zpos m / d in
        let r := Zpos m mod d in
        let n :=
          match 2 * r ?= d with
          | Lt => q
          | Gt => q + 1
          | Eq => if Z.even q then q else q + 1
          end in
        Ok (cond_Zopp s n)
  end.

(** The exact value of a finite float, as a fraction. *)
Definition float_value (x : PyFloat.float) : option Q :=
  match x with
  | S754_zero _ => Some (inject_Z 0)
  | S754_finite s m e =>
      let v := cond_Zopp s (Zpos m) in
      Some (if 0 <=? e then inject_Z (v * 2 ^ e)
            else Qmake v (Z.to_pos (2 ^ (- e))))
  | _ => None
  end.

End Notions.

Section WorldNotions.
Context `{lib : Imaging}.

(** The frame rate a path declares to the decoder. *)
Definition declared_fps (w : world) (path : string) : PyFloat.float :=
  match files w !! path with
  | Some (VideoFile fps _) => fps
  | _ => PyFloat.zero
  end.

(** The frames the decoder yields for a path. *)
Definition decoded_frames (w : world) (path : string) : list image :=
  match files w !! path with
  | Some (VideoFile _ frames) => frames
  | _ => []
  end.

(** The palette the quantization step will use in a world: [Some] colors
    for a custom palette, [None] for the automatic quantizer. *)
Inductive quantizer :=
| CustomPalette (palette : list color)
| MedianCut (colors : Z).

(** The quantization step is set to succeed with the given quantizer: no
    palette file (or one that is missing or empty) and a palette size the
    library accepts, or a palette file of valid lines, at most 256. *)
Definition quantizer_ready (w : world) (p : params) (q : quantizer) : Prop :=
  match truthy_path (palette_file p) with
  | None => q = MedianCut (palette_size p) /\ 1 <= palette_size p <= 256
  | Some path =>
      match files w !! path with
      | None => q = MedianCut (palette_size p) /\ 1 <= palette_size p <= 256
      | Some (TextFile content) =>
          exists palette,
            Forall2 valid_line (PyStr.readlines content) palette /\
            match palette with
            | [] => q = MedianCut (palette_size p) /\ 1 <= palette_size p <= 256
            | _ => q = CustomPalette palette /\ (length palette <= 256)%nat
            end
      | Some _ => False
      end
  end.

Definition apply_quantizer (q : quantizer) (img : image) : result image :=
  match q with
  | CustomPalette palette => quantize_palette (flatten_palette palette) img
  | MedianCut n => quantize_mediancut n img
  end.

(** The world after the quantization step has looked for its palette: a
    missing palette file leaves one diagnostic on standard output. *)
Definition note_missing_palette (p : params) (w : world) : world :=
  match truthy_path (palette_file p) with
  | Some path =>
      match files w !! path with
      | None =>
          {| files := files w; stdout := stdout w ++ [PaletteNotFound path];
             handles := handles w; temp_dirs := temp_dirs w;
             next_temp := next_temp w; commands := commands w |}
      | Some _ => w
      end
  | None => w
  end.

End WorldNotions.

(** * Properties *)

(** ** Characters and [int(_, 16)] on slices *)

Section Chars.

Local Open Scope string_scope.
Local Open Scope Z_scope.

Definition all_ascii : list ascii := map ascii_of_nat (seq 0 256).

Lemma all_ascii_complete (P : ascii -> bool) :
  forallb P all_ascii = true -> forall c, P c = true.
Proof.
  intros HP c. rewrite forallb_forall in HP. apply HP.
  rewrite <- (ascii_nat_embedding c). apply in_map, in_seq.
  pose proof (nat_ascii_bounded c). lia.
Qed.

Definition result_Z_eqb (a b : result Z) : bool :=
  match a, b with
  | Ok x, Ok y => x =? y
  | Raise _, Raise _ => true
  | _, _ => false
  end.

Lemma result_Z_eqb_Ok a v : result_Z_eqb a (Ok v) = true -> a = Ok v.
Proof.
  destruct a as [x|e]; simpl; [|discriminate].
  intros H. apply Z.eqb_eq in H. by subst.
Qed.

Lemma int16_only_ValueError s e : PyStr.int16 s = Raise e -> e = ValueError.
Proof.
  unfold PyStr.int16.
  destruct (PyStr.parse_sign (PyStr.lstrip s)) as [neg s1].
  destruct (PyStr.startswith _ _); [by intros [= <-]|].
  destruct (PyStr.scan_digits16 _ _ _ _) as [[[v [|n]] rest]|];
    try by intros [= <-].
  destruct (PyStr.lstrip rest); [discriminate|by intros [= <-]].
Qed.

(** Two hex digits are read as one byte. *)
Lemma int16_hex_pair a b x y :
  PyStr.hex_digit a = Some x -> PyStr.hex_digit b = Some y ->
  PyStr.int16 (String a (String b EmptyString)) = Ok (16 * x + y).
Proof.
  intros Ha Hb.
  assert (Hall : forallb (fun a => forallb (fun b =>
            match PyStr.hex_digit a, PyStr.hex_digit b with
            | Some x, Some y =>
                result_Z_eqb (PyStr.int16 (String a (String b EmptyString)))
                             (Ok (16 * x + y))
            | _, _ => true
            end) all_ascii) all_ascii = true) by (vm_compute; reflexivity).
  pose proof (all_ascii_complete _ (all_ascii_complete _ Hall a) b) as H.
  simpl in H. rewrite Ha, Hb in H. by apply result_Z_eqb_Ok.
Qed.



Lemma hex_digit_plain c v :
  PyStr.hex_digit c = Some v ->
  PyStr.is_space c = false /\ c <> "#"%char /\ 0 <= v < 16.
Proof.
  assert (Hall : forallb (fun c =>
            match PyStr.hex_digit c with
            | Some v => negb (PyStr.is_space c) && negb (bool_decide (c = "#"%char))
                        && (0 <=? v) && (v <? 16)
            | None => true
            end) all_ascii = true) by (vm_compute; reflexivity).
  pose proof (all_ascii_complete _ Hall c) as H. simpl in H.
  intros Hc. rewrite Hc in H.
  repeat (apply andb_true_iff in H; destruct H as [H ?]).
  apply negb_true_iff in H. apply negb_true_iff, bool_decide_eq_false in H2.
  repeat split; auto; lia.
Qed.

End Chars.

(** ** Stripping *)

Section Strip.

Local Open Scope string_scope.

Fixpoint no_space (s : string) : bool :=
  match s with
  | String c r => negb (PyStr.is_space c) && no_space r
  | EmptyString => true
  end.

Lemma lstrip_all_space pre s :
  all_space pre = true -> PyStr.lstrip (pre ++ s) = PyStr.lstrip s.
Proof.
  induction pre as [|c pre IH]; simpl; [done|].
  intros [Hc Hpre]%andb_true_iff. rewrite Hc. auto.
Qed.

Lemma rstrip_all_space post :
  all_space post = true -> PyStr.rstrip post = EmptyString.
Proof.
  induction post as [|c post IH]; simpl; [done|].
  intros [Hc Hpost]%andb_true_iff. rewrite (IH Hpost). by rewrite Hc.
Qed.

Lemma rstrip_no_space s : no_space s = true -> PyStr.rstrip s = s.
Proof.
  induction s as [|c s IH]; simpl; [done|].
  intros [Hc Hs]%andb_true_iff. rewrite (IH Hs).
  apply negb_true_iff in Hc. rewrite Hc. by destruct s.
Qed.

Lemma rstrip_app_all_space s post :
  all_space post = true -> PyStr.rstrip (s ++ post) = PyStr.rstrip s.
Proof.
  intros Hpost. induction s as [|c s IH]; simpl.
  - by apply rstrip_all_space.
  - by rewrite IH.
Qed.

(** White space around a token without white space is stripped away. *)
Lemma strip_token pre tok post c r :
  all_space pre = true -> all_space post = true ->
  tok = String c r -> no_space tok = true ->
  PyStr.strip (pre ++ tok ++ post) = tok.
Proof.
  intros Hpre Hpost -> Htok. unfold PyStr.strip.
  rewrite lstrip_all_space by done.
  pose proof Htok as [Hc _]%andb_true_iff. apply negb_true_iff in Hc.
  simpl. rewrite Hc.
  change (String c (r ++ post)) with (String c r ++ post).
  rewrite rstrip_app_all_space by done. by apply rstrip_no_space.
Qed.

Lemma hex6_inv tok rgb :
  hex6 tok = Some rgb ->
  exists r1 r2 g1 g2 b1 b2 x1 x2 y1 y2 z1 z2,
    tok = String r1 (String r2 (String g1 (String g2 (String b1 (String b2 EmptyString))))) /\
    PyStr.hex_digit r1 = Some x1 /\ PyStr.hex_digit r2 = Some x2 /\
    PyStr.hex_digit g1 = Some y1 /\ PyStr.hex_digit g2 = Some y2 /\
    PyStr.hex_digit b1 = Some z1 /\ PyStr.hex_digit b2 = Some z2 /\
    rgb = (16 * x1 + x2, 16 * y1 + y2, 16 * z1 + z2)%Z.
Proof.
  destruct tok as [|r1 [|r2 [|g1 [|g2 [|b1 [|b2 [|? ?]]]]]]]; try discriminate.
  simpl.
  destruct (PyStr.hex_digit r1) as [x1|] eqn:E1; [|discriminate].
  destruct (PyStr.hex_digit r2) as [x2|] eqn:E2; [|discriminate].
  destruct (PyStr.hex_digit g1) as [y1|] eqn:E3; [|discriminate].
  destruct (PyStr.hex_digit g2) as [y2|] eqn:E4; [|discriminate].
  destruct (PyStr.hex_digit b1) as [z1|] eqn:E5; [|discriminate].
  destruct (PyStr.hex_digit b2) as [z2|] eqn:E6; [|discriminate].
  intros [= <-]. by exists r1, r2, g1, g2, b1, b2, x1, x2, y1, y2, z1, z2.
Qed.

Lemma parse_token_hex6 tok rgb : hex6 tok = Some rgb -> parse_token tok = Ok rgb.
Proof.
  intros (r1 & r2 & g1 & g2 & b1 & b2 & x1 & x2 & y1 & y2 & z1 & z2 &
          -> & H1 & H2 & H3 & H4 & H5 & H6 & ->)%hex6_inv.
  unfold parse_token, PyStr.slice. simpl substring.
  rewrite (int16_hex_pair _ _ _ _ H1 H2). simpl rbind.
  rewrite (int16_hex_pair _ _ _ _ H3 H4). simpl rbind.
  by rewrite (int16_hex_pair _ _ _ _ H5 H6).
Qed.

Lemma hex6_no_space tok rgb :
  hex6 tok = Some rgb ->
  no_space tok = true /\ exists c r, tok = String c r /\ c <> "#"%char.
Proof.
  intros (r1 & r2 & g1 & g2 & b1 & b2 & x1 & x2 & y1 & y2 & z1 & z2 &
          -> & H1 & H2 & H3 & H4 & H5 & H6 & ->)%hex6_inv.
  apply hex_digit_plain in H1 as (S1 & N1 & _), H2 as (S2 & _ & _),
    H3 as (S3 & _ & _), H4 as (S4 & _ & _), H5 as (S5 & _ & _), H6 as (S6 & _ & _).
  split; [simpl; by rewrite S1, S2, S3, S4, S5, S6|eauto].
Qed.

(** A valid line parses to the color it denotes. *)
Lemma parse_line_valid line rgb : valid_line line rgb -> parse_line line = Ok rgb.
Proof.
  intros (pre & tok & post & Hpre & Hpost & Htok & Hline).
  pose proof (parse_token_hex6 _ _ Htok) as Hparse.
  destruct (hex6_no_space _ _ Htok) as (Hns & c & r & -> & Hc).
  assert (Hstart : PyStr.startswith "#" (String c r) = false).
  { unfold PyStr.startswith. apply bool_decide_eq_false_2. congruence. }
  unfold parse_line, palette_token.
  destruct Hline as [-> | ->].
  - rewrite (strip_token pre _ post c r) by done.
    by rewrite Hstart.
  - change ("#" ++ String c r ++ post) with (String "#" (String c r) ++ post).
    rewrite (strip_token pre _ post "#" (String c r)); [|done|done|done|].
    + unfold PyStr.startswith at 1. rewrite bool_decide_eq_true_2 by done.
      cbn [PyStr.lstrip_char]. rewrite bool_decide_eq_true_2 by done.
      cbn [PyStr.lstrip_char]. fold (PyStr.startswith "#" (String c r)).
      by rewrite Hstart.
    + change (negb (PyStr.is_space "#") && no_space (String c r) = true).
      by rewrite Hns.
Qed.

Lemma parse_lines_app lines acc colors :
  Forall2 valid_line lines colors -> parse_lines lines acc = Ok (acc ++ colors)%list.
Proof.
  intros H. revert acc.
  induction H as [|line rgb lines colors Hline _ IH]; intros acc; simpl.
  - by rewrite app_nil_r.
  - rewrite (parse_line_valid _ _ Hline). simpl.
    rewrite IH. by rewrite <- app_assoc.
Qed.

End Strip.

(** ** The palette loader *)

Section Loader.
Context `{lib : Imaging}.

Local Open Scope string_scope.

Lemma parse_token_only_ValueError tok e :
  parse_token tok = Raise e -> e = ValueError.
Proof.
  unfold parse_token.
  destruct (PyStr.int16 (PyStr.slice 0 2 tok)) eqn:E1; simpl;
    [|intros [= <-]; by eapply int16_only_ValueError].
  destruct (PyStr.int16 (PyStr.slice 2 4 tok)) eqn:E2; simpl;
    [|intros [= <-]; by eapply int16_only_ValueError].
  destruct (PyStr.int16 (PyStr.slice 4 6 tok)) eqn:E3; simpl;
    [discriminate|intros [= <-]; by eapply int16_only_ValueError].
Qed.



Lemma parse_lines_only_ValueError lines acc e :
  parse_lines lines acc = Raise e -> e = ValueError.
Proof.
  revert acc. induction lines as [|line lines IH]; intros acc; simpl; [done|].
  unfold parse_line.
  destruct (parse_token (palette_token line)) eqn:E; simpl; [by apply IH|].
  intros [= <-]. by eapply parse_token_only_ValueError.
Qed.


Lemma load_palette_text (w : world) path content :
  files w !! path = Some (TextFile content) ->
  load_palette_from_file path w =
    (match parse_lines (PyStr.readlines content) [] with
     | Ok palette => Ok (Some palette)
     | Raise e => Raise e
     end, w).
Proof.
  intros Hf. unfold load_palette_from_file, open_text. rewrite Hf.
  by destruct (parse_lines _ _).
Qed.

Lemma load_palette_missing (w : world) path :
  files w !! path = None ->
  load_palette_from_file path w =
    (Ok None,
     {| files := files w; stdout := stdout w ++ [PaletteNotFound path];
        handles := handles w; temp_dirs := temp_dirs w;
        next_temp := next_temp w; commands := commands w |}).
Proof.
  intros Hf. unfold load_palette_from_file, open_text. by rewrite Hf.
Qed.

(** C2. A palette file whose every line is a valid hex color token loads
    to exactly one color per line, in file order, and the world is left as
    it was; a path that does not exist gives [None], which is not the empty
    palette [Some []]. *)
Theorem load_palette_valid_or_missing (w : world) (path : string) :
  (forall content colors,
     files w !! path = Some (TextFile content) ->
     Forall2 valid_line (PyStr.readlines content) colors ->
     load_palette_from_file path w = (Ok (Some colors), w) /\
     length colors = length (PyStr.readlines content)) /\
  (files w !! path = None ->
   (load_palette_from_file path w).1 = Ok None /\
   (load_palette_from_file path w).1 <> Ok (Some [])).
Proof.
  split.
  - intros content colors Hf Hlines. split.
    + rewrite (load_palette_text _ _ _ Hf).
      by rewrite (parse_lines_app _ [] _ Hlines).
    + symmetry. by eapply Forall2_length.
  - intros Hf. rewrite (load_palette_missing _ _ Hf). by split.
Qed.


End Loader.

(** ** The image pipeline *)

Section Pipeline.
Context `{lib : Imaging} `{laws : !ImagingLaws}.

Local Open Scope string_scope.
Local Open Scope Z_scope.

Lemma is_Ok_true {A} (r : result A) : is_Ok r = true -> exists a, r = Ok a.
Proof. destruct r; [eauto|discriminate]. Qed.

Lemma size_adjust p img : image_size (adjust p img) = image_size img.
Proof.
  unfold adjust.
  destruct (negb (PyFloat.eqb (contrast_factor p) _));
    destruct (negb (PyFloat.eqb (brightness_factor p) _));
    rewrite ?size_enhance_contrast, ?size_enhance_brightness; done.
Qed.

Lemma valid_line_byte_color line rgb : valid_line line rgb -> byte_color rgb.
Proof.
  intros (pre & tok & post & _ & _ & Htok & _).
  apply hex6_inv in Htok
    as (r1 & r2 & g1 & g2 & b1 & b2 & x1 & x2 & y1 & y2 & z1 & z2 &
        _ & H1 & H2 & H3 & H4 & H5 & H6 & ->).
  apply hex_digit_plain in H1 as (_ & _ & ?), H2 as (_ & _ & ?),
    H3 as (_ & _ & ?), H4 as (_ & _ & ?), H5 as (_ & _ & ?), H6 as (_ & _ & ?).
  unfold byte_color. lia.
Qed.

Lemma valid_lines_byte_colors lines colors :
  Forall2 valid_line lines colors -> Forall byte_color colors.
Proof.
  induction 1 as [|line rgb lines colors Hline _ IH]; constructor; [|done].
  by eapply valid_line_byte_color.
Qed.

Lemma files_note_missing_palette p (w : world) :
  files (note_missing_palette p w) = files w.
Proof.
  unfold note_missing_palette.
  destruct (truthy_path _); [|done]. by destruct (files w !! _).
Qed.

(** The quantization step, once its palette source is known to be sound:
    it applies the quantizer and leaves at most a diagnostic. *)
Lemma quantize_step_ready (w : world) p q img :
  quantizer_ready w p q ->
  quantize_step p img w = (apply_quantizer q img, note_missing_palette p w) /\
  is_Ok (apply_quantizer q img) = true.
Proof.
  unfold quantizer_ready, quantize_step, note_missing_palette.
  destruct (truthy_path (palette_file p)) as [path|].
  - destruct (files w !! path) as [[content| |]|] eqn:Hf; try done.
    + intros (palette & Hlines & Hq). unfold bind.
      rewrite (load_palette_text _ _ _ Hf).
      rewrite (parse_lines_app _ [] _ Hlines). simpl.
      destruct palette as [|c cs].
      * destruct Hq as [-> Hn]. split; [done|].
        by apply quantize_mediancut_total.
      * destruct Hq as [-> Hlen]. split; [done|].
        apply quantize_palette_total; [done|done|].
        by eapply valid_lines_byte_colors.
    + intros [-> Hn]. unfold bind.
      rewrite (load_palette_missing _ _ Hf). simpl. split; [done|].
      by apply quantize_mediancut_total.
  - intros [-> Hn]. split; [done|]. by apply quantize_mediancut_total.
Qed.

(** One run of [pixelate_image], step by step: it returns, and names the
    image of each stage. *)
Lemma pixelate_image_run (w : world) input_path output_path p q img0 ow oh th :
  files w !! input_path = Some (ImageFile img0) ->
  image_size img0 = (ow, oh) -> 0 < ow -> 0 < oh ->
  0 < target_width p -> 0 < pixel_scale p ->
  target_height_of (target_width p) ow oh = Ok th -> 0 < th ->
  quantizer_ready w p q ->
  exists small quantized enlarged,
    resize_nearest (target_width p, th) (adjust p (convert_rgb img0)) = Ok small /\
    apply_quantizer q small = Ok quantized /\
    resize_nearest (target_width p * pixel_scale p, th * pixel_scale p) quantized
      = Ok enlarged /\
    image_size small = (target_width p, th) /\
    image_size quantized = (target_width p, th) /\
    image_size enlarged = (target_width p * pixel_scale p, th * pixel_scale p) /\
    pixelate_image input_path output_path p w =
      (Ok tt,
       set_files (<[output_path := ImageFile enlarged]> (files w))
                 (note_missing_palette p w)).
Proof.
  intros Hf Hsize How Hoh HW Hs Hth Hthpos Hq.
  assert (Hsz : image_size (adjust p (convert_rgb img0)) = (ow, oh))
    by (by rewrite size_adjust, size_convert_rgb).
  destruct (is_Ok_true (resize_nearest (target_width p, th)
                          (adjust p (convert_rgb img0)))) as [small Hsmall].
  { apply resize_nearest_total; rewrite ?Hsz; simpl; lia. }
  pose proof (resize_nearest_size _ _ _ Hsmall) as Hsmall_size.
  destruct (quantize_step_ready w p q small Hq) as [Hstep Hok].
  destruct (is_Ok_true _ Hok) as [quantized Hquant].
  assert (Hqsize : image_size quantized = (target_width p, th)).
  { rewrite <- Hsmall_size. destruct q; simpl in Hquant.
    - by eapply quantize_palette_size.
    - by eapply quantize_mediancut_size. }
  destruct (is_Ok_true (resize_nearest
              (target_width p * pixel_scale p, th * pixel_scale p) quantized))
    as [enlarged Henl].
  { apply resize_nearest_total; rewrite ?Hqsize; simpl; lia. }
  exists small, quantized, enlarged.
  repeat split; try done.
  - by eapply resize_nearest_size.
  - unfold pixelate_image, bind, image_open, lift, image_save.
    rewrite Hf, Hsz, Hth, Hsmall, Hstep, Hquant, Henl.
    by rewrite files_note_missing_palette.
Qed.

End Pipeline.

(** ** Floats: signs and truncation *)

Section FloatFacts.

Local Open Scope Z_scope.

(** A float that is zero or positive. *)
Definition nonneg_float (x : PyFloat.float) : Prop :=
  match x with
  | S754_zero _ => True
  | S754_finite s _ _ => s = false
  | S754_infinity s => s = false
  | S754_nan => False
  end.

Lemma iter_pos_invariant {A} (P : A -> Prop) (f : A -> A) n x :
  (forall y, P y -> P (f y)) -> P x -> P (SpecFloat.iter_pos f n x).
Proof.
  intros Hf. revert x. induction n as [n IH|n IH|]; simpl; auto.
Qed.

Lemma shr_1_nonneg mrs : 0 <= shr_m mrs -> 0 <= shr_m (shr_1 mrs).
Proof.
  destruct mrs as [m r s]. simpl.
  destruct m as [|[?|?|]|[?|?|]]; simpl; lia.
Qed.

Lemma shr_fexp_nonneg m e l :
  0 <= m -> 0 <= shr_m (shr_fexp PyFloat.prec PyFloat.emax m e l).1.
Proof.
  intros Hm. unfold shr_fexp, shr.
  assert (H0 : 0 <= shr_m (shr_record_of_loc m l)) by (by destruct l as [|[]]).
  destruct (_ - e); simpl; try done.
  apply (iter_pos_invariant (fun mrs => 0 <= shr_m mrs)); [|done].
  apply shr_1_nonneg.
Qed.

Lemma round_nearest_even_nonneg m l : 0 <= m -> 0 <= round_nearest_even m l.
Proof.
  intros Hm. destruct l as [|[]]; simpl; try lia.
  destruct (Z.even m); lia.
Qed.

(** Rounding a mantissa that is not negative gives a zero, a finite float
    or an infinity of the sign asked for, never a NaN. *)
Lemma binary_round_aux_nonneg sx mx ex lx :
  0 <= mx ->
  match binary_round_aux PyFloat.prec PyFloat.emax sx mx ex lx with
  | S754_zero s | S754_infinity s | S754_finite s _ _ => s = sx
  | S754_nan => False
  end.
Proof.
  intros Hm. unfold binary_round_aux.
  pose proof (shr_fexp_nonneg mx ex lx Hm) as H1.
  destruct (shr_fexp _ _ mx ex lx) as [mrs' e']. simpl in H1.
  pose proof (shr_fexp_nonneg _ e' loc_Exact
                (round_nearest_even_nonneg _ (loc_of_shr_record mrs') H1)) as H2.
  destruct (shr_fexp _ _ _ e' loc_Exact) as [mrs'' e'']. simpl in H2.
  destruct (shr_m mrs'') as [|m|m]; [done| |lia].
  by destruct (_ <=? _).
Qed.

Lemma nonneg_of_round sx mx ex lx :
  0 <= mx -> sx = false ->
  nonneg_float (binary_round_aux PyFloat.prec PyFloat.emax sx mx ex lx).
Proof.
  intros Hm ->. pose proof (binary_round_aux_nonneg false mx ex lx Hm) as H.
  by destruct (binary_round_aux _ _ _ _ _ _).
Qed.

Lemma truediv_nonneg a b f :
  0 < a -> 0 < b -> PyFloat.truediv a b = Ok f -> nonneg_float f.
Proof.
  intros Ha Hb. unfold PyFloat.truediv.
  destruct (b =? 0) eqn:Eb; [lia|]. destruct (a =? 0) eqn:Ea; [lia|].
  destruct (SFdiv_core_binary _ _ _ _ _ _) as [[q e] l] eqn:Ediv.
  replace (a <? 0) with false by (symmetry; apply Z.ltb_ge; lia).
  replace (b <? 0) with false by (symmetry; apply Z.ltb_ge; lia).
  assert (Hq : 0 <= q).
  { unfold SFdiv_core_binary in Ediv.
    set (m' := match _ - _ with Z0 => _ | Zpos _ => _ | Zneg _ => _ end) in Ediv.
    assert (0 <= m').
    { subst m'. destruct (_ - _); try lia. apply Z.shiftl_nonneg. lia. }
    pose proof (Z_div_mod m' (Z.abs b) ltac:(lia)) as Hdm.
    destruct (Z.div_eucl m' (Z.abs b)) as [q' r']. injection Ediv as <- _ _.
    nia. }
  pose proof (nonneg_of_round (xorb false false) q e l Hq eq_refl) as H.
  destruct (binary_round_aux _ _ _ _ _ _); intros [= <-]; done.
Qed.

Lemma of_int_nonneg n f : 0 < n -> PyFloat.of_int n = Ok f -> nonneg_float f.
Proof.
  intros Hn. unfold PyFloat.of_int, binary_normalize.
  destruct n as [|m|m]; try lia.
  unfold binary_round.
  destruct (shl_align _ _ _) as [mz ez].
  pose proof (nonneg_of_round false (Zpos mz) ez loc_Exact ltac:(lia) eq_refl) as H.
  destruct (binary_round_aux _ _ _ _ _ _); intros [= <-]; done.
Qed.

Lemma mul_nonneg x y :
  nonneg_float x -> nonneg_float y ->
  PyFloat.mul x y = S754_nan \/ nonneg_float (PyFloat.mul x y).
Proof.
  unfold PyFloat.mul, SFmul.
  destruct x as [sx|sx| |sx mx ex], y as [sy|sy| |sy my ey]; simpl;
    try (intros; subst; (by left) || (by right)).
  intros -> ->. right. by apply nonneg_of_round.
Qed.

(** [int(x)] on a float that is not negative is its floor. *)
Lemma to_int_floor x n :
  nonneg_float x -> PyFloat.to_int x = Ok n ->
  exists v, float_value x = Some v /\
            (inject_Z n <= v)%Q /\ (v < inject_Z (n + 1))%Q.
Proof.
  destruct x as [s|s| |s m e]; simpl; try done.
  - intros _ [= <-]. exists (inject_Z 0). split; [done|].
    unfold Qle, Qlt; simpl; lia.
  - intros -> [= <-]. simpl.
    destruct (0 <=? e) eqn:Ee.
    + rewrite Z.shiftl_mul_pow2 by lia.
      eexists; split; [done|]. unfold Qle, Qlt; simpl; lia.
    + rewrite Z.shiftr_div_pow2 by lia.
      assert (Hd : 0 < 2 ^ (- e)) by (apply Z.pow_pos_nonneg; lia).
      eexists; split; [done|].
      pose proof (Z.div_mod (Zpos m) (2 ^ (- e)) ltac:(lia)) as Hdm.
      pose proof (Z.mod_pos_bound (Zpos m) (2 ^ (- e)) Hd) as Hmod.
      unfold Qle, Qlt; simpl. rewrite Z2Pos.id by done. nia.
Qed.

(** The height the pipeline computes from positive sizes: the floor of the
    binary64 product [float(target_width) * (height / width)]. *)
Lemma target_height_floor W ow oh th :
  0 < W -> 0 < ow -> 0 < oh -> target_height_of W ow oh = Ok th ->
  exists aspect_ratio product v,
    PyFloat.truediv oh ow = Ok aspect_ratio /\
    PyFloat.int_mul W aspect_ratio = Ok product /\
    float_value product = Some v /\
    (inject_Z th <= v)%Q /\ (v < inject_Z (th + 1))%Q.
Proof.
  intros HW How Hoh. unfold target_height_of.
  destruct (PyFloat.truediv oh ow) as [a|] eqn:Ea; simpl; [|discriminate].
  unfold PyFloat.int_mul.
  destruct (PyFloat.of_int W) as [fw|] eqn:Ew; simpl; [|discriminate].
  intros Hint.
  pose proof (truediv_nonneg _ _ _ Hoh How Ea) as Hna.
  pose proof (of_int_nonneg _ _ HW Ew) as Hnw.
  destruct (mul_nonneg fw a Hnw Hna) as [Hnan|Hnn];
    [rewrite Hnan in Hint; discriminate|].
  destruct (to_int_floor _ _ Hnn Hint) as (v & Hv & Hle & Hlt).
  by exists a, (PyFloat.mul fw a), v.
Qed.

End FloatFacts.

(** ** The image pipeline: sizes, identity adjustment, palette fallback *)

Section PipelineClaims.
Context `{lib : Imaging}.

Local Open Scope string_scope.
Local Open Scope Z_scope.



(** C6, as amended. The height of the output is the pixel scale times the
    floor, not the rounding, of the binary64 product
    [float(W) * (oh / ow)]: with th the computed height and v the exact
    value of that product, th <= v < th + 1. *)
Theorem pixelate_image_height_truncates `{laws : !ImagingLaws}
    (w : world) (input_path output_path : string) (p : params)
    (q : quantizer) (img0 : image) (ow oh th : Z) :
  files w !! input_path = Some (ImageFile img0) ->
  image_size img0 = (ow, oh) ->
  0 < ow -> 0 < oh -> 0 < target_width p -> 0 < pixel_scale p ->
  target_height_of (target_width p) ow oh = Ok th -> 0 < th ->
  quantizer_ready w p q ->
  exists out aspect_ratio product v,
    files (pixelate_image input_path output_path p w).2 !! output_path
      = Some (ImageFile out) /\
    image_size out = (target_width p * pixel_scale p, th * pixel_scale p) /\
    PyFloat.truediv oh ow = Ok aspect_ratio /\
    PyFloat.int_mul (target_width p) aspect_ratio = Ok product /\
    float_value product = Some v /\
    (inject_Z th <= v)%Q /\ (v < inject_Z (th + 1))%Q.
Proof.
  intros Hf Hsize How Hoh HW Hs Hth Hpos Hq.
  destruct (pixelate_image_run w input_path output_path p q img0 ow oh th)
    as (small & quantized & enlarged & _ & _ & _ & _ & _ & Hsz & Hrun); try done.
  destruct (target_height_floor _ _ _ _ HW How Hoh Hth)
    as (a & prod & v & Ha & Hprod & Hv & Hle & Hlt).
  exists enlarged, a, prod, v. rewrite Hrun. simpl.
  by rewrite lookup_insert_eq.
Qed.

(** C5. With [brightness_factor = 1.0] and [contrast_factor = 1.0] the
    brightness and contrast steps return the image they are given: no
    enhancer is called, so every pixel reaches the downscale step as
    decoded. *)
Theorem adjust_identity (p : params) (img : image) :
  brightness_factor p = PyFloat.one ->
  contrast_factor p = PyFloat.one ->
  adjust p img = img.
Proof.
  intros Hb Hc. unfold adjust. by rewrite Hb, Hc.
Qed.




End PipelineClaims.

(** ** Frame conditions: what the image pipeline never touches *)

Section Frames.
Context `{lib : Imaging}.

Local Open Scope string_scope.

(** Two worlds with the same decoder handles, temporary directories and
    command history. *)
Definition same_resources (w w' : world) : Prop :=
  handles w' = handles w /\ temp_dirs w' = temp_dirs w /\
  next_temp w' = next_temp w /\ commands w' = commands w.

Lemma same_resources_refl w : same_resources w w.
Proof. by repeat split. Qed.

Lemma same_resources_trans w1 w2 w3 :
  same_resources w1 w2 -> same_resources w2 w3 -> same_resources w1 w3.
Proof.
  intros (? & ? & ? & ?) (? & ? & ? & ?). repeat split; congruence.
Qed.

Lemma load_palette_resources path (w : world) :
  same_resources w (load_palette_from_file path w).2.
Proof.
  unfold load_palette_from_file, open_text.
  destruct (files w !! path) as [[content| |]|]; simpl;
    try apply same_resources_refl; [|by repeat split].
  destruct (parse_lines _ _); apply same_resources_refl.
Qed.

Lemma quantize_step_resources p img (w : world) :
  same_resources w (quantize_step p img w).2.
Proof.
  unfold quantize_step, bind, lift.
  destruct (truthy_path _) as [path|]; [|apply same_resources_refl].
  pose proof (load_palette_resources path w) as H.
  destruct (load_palette_from_file path w) as [[[[|c cs]|]|e] w1]; done.
Qed.

Lemma pixelate_image_resources input_path output_path p (w : world) :
  same_resources w (pixelate_image input_path output_path p w).2.
Proof.
  unfold pixelate_image, bind, image_open, lift, image_save.
  destruct (files w !! input_path) as [[?|img|? ?]|];
    try apply same_resources_refl.
  destruct (image_size _) as [ow oh].
  destruct (target_height_of _ _ _); [|apply same_resources_refl].
  destruct (resize_nearest _ _) as [small|]; [|apply same_resources_refl].
  pose proof (quantize_step_resources p small w) as H.
  destruct (quantize_step p small w) as [[quantized|e] w1]; [|done].
  destruct (resize_nearest _ _); done.
Qed.

Lemma frame_loop_resources temp_dir p frames n (w : world) :
  same_resources w (frame_loop temp_dir p frames n w).2.
Proof.
  revert n w. induction frames as [|frame rest IH]; intros n w; simpl.
  - apply same_resources_refl.
  - unfold bind at 1. simpl. unfold bind at 1.
    set (w1 := set_files _ w).
    pose proof (pixelate_image_resources
                  (frame_path temp_dir n) (pixelated_path temp_dir n) p w1) as H1.
    destruct (pixelate_image _ _ p w1) as [[[]|e] w2]; simpl in *.
    + eapply same_resources_trans; [|apply IH].
      eapply same_resources_trans; [|exact H1]. done.
    + eapply same_resources_trans; [|exact H1]. done.
Qed.

End Frames.

(** ** The video pipeline, unfolded *)

Section Video.
Context `{lib : Imaging} `{sub : !Subprocess}.

Local Open Scope string_scope.

(** The state of a handle [cv2.VideoCapture] creates on a path. *)
Definition new_handle (w : world) (path : string) : handle_state :=
  match files w !! path with
  | Some (VideoFile _ _) => HandleOpen
  | _ => HandleUnopened
  end.

(** The world in which the frame loop starts: the prober's handle and the
    loop's handle exist, the frame rates are reported, the temporary
    directory is there. *)
Definition loop_start (w : world) (input_path : string) (fps : pynum) : world :=
  let detected := declared_fps w input_path in
  let st := new_handle w input_path in
  {| files := files w;
     stdout := stdout w ++ [FpsReport detected (effective_fps fps detected)];
     handles := (handles w ++ [st]) ++ [st];
     temp_dirs := {[temp_dir_name (next_temp w)]} ∪ temp_dirs w;
     next_temp := S (next_temp w);
     commands := commands w |}.

(** What leaving the [with] block does. *)
Definition cleanup (temp_dir : string) (w : world) : world :=
  {| files := filter (fun kv => negb (in_dir temp_dir kv.1) = true) (files w);
     stdout := stdout w; handles := handles w;
     temp_dirs := temp_dirs w ∖ {[temp_dir]}; next_temp := next_temp w;
     commands := commands w |}.

(** The handle of the decoder opened inside the [with] block. *)
Definition loop_handle (w : world) : nat := S (length (handles w)).

Lemma pixelate_video_unfold (w : world) input_path output_path p fps :
  pixelate_video input_path output_path p fps w =
    let temp_dir := temp_dir_name (next_temp w) in
    let eff := effective_fps fps (declared_fps w input_path) in
    match frame_loop temp_dir p (decoded_frames w input_path) 0
            (loop_start w input_path fps) with
    | (Ok _, w5) =>
        let w6 := set_handles (<[loop_handle w := HandleReleased]> (handles w5)) w5 in
        let '(r, w7) := run_checked (ffmpeg_command eff temp_dir output_path) w6 in
        (r, cleanup temp_dir w7)
    | (Raise e, w5) => (Raise e, cleanup temp_dir w5)
    end.
Proof.
  unfold pixelate_video, find_framerate, with_temporary_directory, bind at 1.
  unfold bind at 1, capture_open at 1, loop_start, declared_fps,
    decoded_frames, new_handle, loop_handle.
  destruct (files w !! input_path) as [[?|?|vfps frames]|] eqn:Hf; simpl;
    unfold bind at 1; simpl; unfold bind at 1, capture_open; simpl;
    rewrite Hf; simpl.
  all: try (unfold bind at 1).
  all: rewrite ?length_app; simpl; rewrite ?Nat.add_1_r.
  all: try (destruct (frame_loop _ _ _ _ _) as [[n|e] w5]; [|done]).
  all: unfold bind, capture_release; simpl.
  all: destruct (run_checked _ _) as [r w7]; done.
Qed.

End Video.

(** ** Comparing numbers, and the frame rate handed to the encoder *)

Section FrameRate.
Context `{lib : Imaging} `{sub : !Subprocess}.

Local Open Scope string_scope.

Lemma SFcompare_refl f : f <> S754_nan -> SFcompare f f = Some Eq.
Proof.
  destruct f as [s|s| |s m e]; simpl; try done.
  - by destruct s.
  - intros _. rewrite Z.compare_refl.
    change (Pos.compare_cont Eq m m) with (Pos.compare m m).
    rewrite Pos.compare_refl. by destruct s.
Qed.

Lemma SFcompare_antisym x y c :
  SFcompare x y = Some c -> SFcompare y x = Some (CompOpp c).
Proof.
  destruct x as [sx|sx| |sx mx ex], y as [sy|sy| |sy my ey]; simpl;
    try discriminate;
    try (intros [= <-]; by repeat match goal with b : bool |- _ => destruct b end).
  intros [= <-].
  rewrite (Z.compare_antisym ex ey).
  change (Pos.compare_cont Eq my mx) with (Pos.compare my mx).
  change (Pos.compare_cont Eq mx my) with (Pos.compare mx my).
  rewrite (Pos.compare_antisym mx my).
  destruct sx, sy, (ex ?= ey)%Z, (mx ?= my)%positive; done.
Qed.

Lemma num_compare_antisym a b c :
  num_compare a b = Some c -> num_compare b a = Some (CompOpp c).
Proof.
  destruct a as [x|f], b as [y|g]; simpl.
  - intros [= <-]. by rewrite (Z.compare_antisym x y).
  - intros ->. done.
  - destruct (int_float_compare y f) as [d|]; simpl; [|discriminate].
    intros [= <-]. by destruct d.
  - apply SFcompare_antisym.
Qed.

Lemma num_compare_refl a : is_nan a = false -> num_compare a a = Some Eq.
Proof.
  destruct a as [x|f]; simpl.
  - by rewrite Z.compare_refl.
  - intros Hn. apply SFcompare_refl. by destruct f.
Qed.

Lemma num_compare_total a b :
  is_nan a = false -> is_nan b = false -> exists c, num_compare a b = Some c.
Proof.
  destruct a as [x|f], b as [y|g]; simpl; intros Ha Hb.
  - eauto.
  - destruct g; simpl; eauto; discriminate.
  - destruct f; simpl; eauto; discriminate.
  - destruct f, g; simpl; eauto; discriminate.
Qed.

Lemma num_gt_irrefl a : num_gt a a = false.
Proof.
  unfold num_gt. destruct (is_nan a) eqn:Hn.
  - destruct a as [|[]]; done.
  - by rewrite num_compare_refl.
Qed.

(** The literal [24.0], and [30] requested on it. *)
Definition fps_24 : PyFloat.float := S754_finite false 6755399441055744 (-48).

Lemma effective_fps_30_on_24 :
  PyFloat.of_int 24 = Ok fps_24 /\
  effective_fps (PyInt 30) fps_24 = PyFloat fps_24.
Proof. split; reflexivity. Qed.

(** C7. The frame rate used for encoding is the smaller of the requested
    and the probed one: it is one of the two, it never exceeds the probed
    rate, it is at most both when neither is a NaN, and it is the
    [-framerate] argument of the one encoder command a run issues: always
    when the frame loop returns, and no command is issued otherwise. *)
Theorem effective_fps_is_min
    (w : world) (input_path output_path : string) (p : params) (fps : pynum) :
  let detected := declared_fps w input_path in
  let eff := effective_fps fps detected in
  let temp_dir := temp_dir_name (next_temp w) in
  let final := (pixelate_video input_path output_path p fps w).2 in
  (eff = fps \/ eff = PyFloat detected) /\
  num_gt eff (PyFloat detected) = false /\
  (is_nan fps = false -> is_nan (PyFloat detected) = false ->
   num_le eff (PyFloat detected) = true /\ num_le eff fps = true) /\
  match frame_loop temp_dir p (decoded_frames w input_path) 0
          (loop_start w input_path fps) with
  | (Ok _, _) =>
      commands final =
        (commands w ++ [ffmpeg_command eff temp_dir output_path])%list /\
      nth_error (ffmpeg_command eff temp_dir output_path) 2 = Some (ArgNum eff)
  | (Raise _, _) => commands final = commands w
  end.
Proof.
  intros detected eff temp_dir final.
  assert (Heff : eff = effective_fps fps detected) by done.
  unfold effective_fps in Heff.
  repeat split.
  - destruct (num_gt fps (PyFloat detected)); auto.
  - destruct (num_gt fps (PyFloat detected)) eqn:Hgt; rewrite Heff;
      [apply num_gt_irrefl | done].
  - destruct (num_gt fps (PyFloat detected)) eqn:Hgt; rewrite Heff.
    + unfold num_le. by rewrite num_compare_refl.
    + destruct (num_compare_total fps (PyFloat detected)) as [c Hc]; try done.
      unfold num_gt in Hgt. unfold num_le. rewrite Hc in *. by destruct c.
  - destruct (num_gt fps (PyFloat detected)) eqn:Hgt; rewrite Heff.
    + unfold num_gt in Hgt. unfold num_le.
      destruct (num_compare fps (PyFloat detected)) as [[]|] eqn:Hc; try done.
      by rewrite (num_compare_antisym _ _ _ Hc).
    + unfold num_le. by rewrite num_compare_refl.
  - subst final. rewrite pixelate_video_unfold. cbv zeta.
    fold detected eff temp_dir.
    pose proof (frame_loop_resources temp_dir p (decoded_frames w input_path) 0
                  (loop_start w input_path fps)) as (_ & _ & _ & Hcmd).
    destruct (frame_loop _ _ _ _ _) as [[n|e] w5]; simpl in *.
    + unfold run_checked. simpl.
      destruct (run_process _ _) as [status fs]. simpl.
      split; [|done]. destruct (status =? 0)%Z; simpl; by rewrite Hcmd.
    + done.
Qed.

End FrameRate.

(** ** Leaving the temporary directory, and the decoder handle *)

Section Cleanup.
Context `{lib : Imaging} `{sub : !Subprocess}.

Local Open Scope string_scope.

Lemma cleanup_removes temp_dir (w : world) :
  (temp_dir ∉ temp_dirs (cleanup temp_dir w)) /\
  forall path, in_dir temp_dir path = true ->
               files (cleanup temp_dir w) !! path = None.
Proof.
  split; simpl; [set_solver|].
  intros path Hin. apply map_lookup_filter_None. right.
  intros x _. simpl. rewrite Hin. simpl. done.
Qed.

(** A frame loop that raises was given at least one frame, so its input
    decoded as a video. *)
Lemma frame_loop_raise_video (w w0 w5 : world) temp_dir p input_path n e :
  frame_loop temp_dir p (decoded_frames w input_path) n w0 = (Raise e, w5) ->
  new_handle w input_path = HandleOpen.
Proof.
  unfold decoded_frames, new_handle.
  destruct (files w !! input_path) as [[?|?|vfps frames]|]; try done.
Qed.

(** C10. When the pixelation of a frame raises inside the frame loop,
    [pixelate_video] raises the same exception; on that exit the temporary
    directory is gone with every file in it, and the decoder handle opened
    for the loop is still open, as is the one the frame rate probe opened:
    [release] was not called. *)
Theorem frame_error_cleans_directory_leaks_handle
    (w w5 : world) (input_path output_path : string) (p : params)
    (fps : pynum) (e : exn) :
  frame_loop (temp_dir_name (next_temp w)) p (decoded_frames w input_path) 0
    (loop_start w input_path fps) = (Raise e, w5) ->
  let temp_dir := temp_dir_name (next_temp w) in
  let final := pixelate_video input_path output_path p fps w in
  final.1 = Raise e /\
  (temp_dir ∉ temp_dirs final.2) /\
  (forall path, in_dir temp_dir path = true -> files final.2 !! path = None) /\
  handles final.2 !! loop_handle w = Some HandleOpen /\
  handles final.2 = (handles w ++ [HandleOpen; HandleOpen])%list /\
  commands final.2 = commands w.
Proof.
  intros Hloop temp_dir final. subst final.
  rewrite pixelate_video_unfold. cbv zeta. fold temp_dir.
  pose proof (frame_loop_resources temp_dir p (decoded_frames w input_path) 0
                (loop_start w input_path fps)) as (Hh & _ & _ & Hc).
  pose proof (frame_loop_raise_video _ _ _ _ _ _ _ _ Hloop) as Hst.
  fold temp_dir in Hloop. rewrite Hloop in *. simpl in Hh, Hc.
  destruct (cleanup_removes temp_dir w5) as [Hdir Hfiles].
  rewrite Hst in Hh.
  repeat split; try done.
  - simpl. rewrite Hh. unfold loop_handle.
    rewrite lookup_app_r; rewrite length_app; simpl; [|lia].
    by replace (S (length (handles w)) - (length (handles w) + 1))%nat with 0%nat by lia.
  - simpl. rewrite Hh. by rewrite <- app_assoc.
Qed.

End Cleanup.

(** ** Frame file names *)

Section Paths.

Local Open Scope string_scope.

Definition is_digit (c : ascii) : bool :=
  let n := nat_of_ascii c in (48 <=? n)%nat && (n <=? 57)%nat.

Fixpoint all_digits (s : string) : bool :=
  match s with
  | String c r => is_digit c && all_digits r
  | EmptyString => true
  end.

Lemma append_assoc' (a b c : string) : (a ++ b) ++ c = a ++ b ++ c.
Proof.
  induction a as [|x a IH]; [done|].
  change (String x ((a ++ b) ++ c) = String x (a ++ b ++ c)). by f_equal.
Qed.

Lemma append_inv_head (d a b : string) : d ++ a = d ++ b -> a = b.
Proof.
  induction d as [|x d IH]; [done|].
  change (String x (d ++ a) = String x (d ++ b) -> a = b).
  intros [= H]. auto.
Qed.

Lemma prefix_append (s t : string) : String.prefix s (s ++ t) = true.
Proof.
  induction s as [|x s IH]; [by destruct t|].
  change (String.prefix (String x s) (String x (s ++ t)) = true).
  simpl. destruct (ascii_dec x x); [done|congruence].
Qed.

Lemma in_dir_path_join dir name : in_dir dir (path_join dir name) = true.
Proof.
  unfold in_dir, path_join. rewrite <- append_assoc'. apply prefix_append.
Qed.

Lemma string_of_uint_digits d : all_digits (NilEmpty.string_of_uint d) = true.
Proof. induction d; simpl; auto. Qed.

Lemma format_05d_digits n : all_digits (format_05d n) = true.
Proof. apply string_of_uint_digits. Qed.

Lemma string_of_uint_inj d1 d2 :
  NilEmpty.string_of_uint d1 = NilEmpty.string_of_uint d2 -> d1 = d2.
Proof.
  intros H. apply (f_equal NilEmpty.uint_of_string) in H.
  rewrite !NilEmpty.usu in H. congruence.
Qed.

Lemma of_uint_leading_zeros k d :
  Nat.of_uint (Nat.iter k Decimal.D0 d) = Nat.of_uint d.
Proof. induction k as [|k IH]; simpl; [done|]. exact IH. Qed.

Lemma format_05d_inj n m : format_05d n = format_05d m -> n = m.
Proof.
  unfold format_05d. intros H%string_of_uint_inj.
  apply (f_equal Nat.of_uint) in H.
  rewrite !of_uint_leading_zeros, !Unsigned.of_to in H. done.
Qed.

(** Two strings of digits, each followed by a character that is not a
    digit, are equal only part by part. *)
Lemma digits_then_rest a b c1 r1 c2 r2 :
  all_digits a = true -> all_digits b = true ->
  is_digit c1 = false -> is_digit c2 = false ->
  a ++ String c1 r1 = b ++ String c2 r2 -> a = b /\ String c1 r1 = String c2 r2.
Proof.
  revert b. induction a as [|x a IH]; intros [|y b]; simpl.
  - done.
  - intros _ [Hy _]%andb_true_iff Hc1 _ [= -> _]. congruence.
  - intros [Hx _]%andb_true_iff _ _ Hc2 [= -> _]. congruence.
  - intros [_ Ha]%andb_true_iff [_ Hb]%andb_true_iff Hc1 Hc2 [= -> H].
    destruct (IH b Ha Hb Hc1 Hc2 H) as [-> ?]. done.
Qed.

Lemma frame_path_inj dir i j : frame_path dir i = frame_path dir j -> i = j.
Proof.
  unfold frame_path, path_join. intros H%append_inv_head.
  injection H as H. apply format_05d_inj.
  by eapply (digits_then_rest _ _ "." "png" "." "png");
    rewrite ?format_05d_digits.
Qed.

Lemma pixelated_path_inj dir i j :
  pixelated_path dir i = pixelated_path dir j -> i = j.
Proof.
  unfold pixelated_path, path_join. intros H%append_inv_head.
  injection H as H. apply format_05d_inj.
  by eapply (digits_then_rest _ _ "_" "pixelated.png" "_" "pixelated.png");
    rewrite ?format_05d_digits.
Qed.

Lemma frame_path_not_pixelated dir i j : frame_path dir i <> pixelated_path dir j.
Proof.
  unfold frame_path, pixelated_path, path_join. intros H%append_inv_head.
  injection H as H.
  apply (digits_then_rest _ _ "." "png" "_" "pixelated.png") in H as [_ H];
    rewrite ?format_05d_digits; done.
Qed.

End Paths.

(** ** The frame loop *)

Section FrameLoop.
Context `{lib : Imaging} `{laws : !ImagingLaws}.

Local Open Scope string_scope.
Local Open Scope Z_scope.

(** The image [pixelate_image] makes of a decoded input, once the
    quantizer is known: the stages in order, as a function. *)
Definition render (p : params) (q : quantizer) (img0 : image) : result image :=
  let img := adjust p (convert_rgb img0) in
  let '(original_width, original_height) := image_size img in
  rbind (target_height_of (target_width p) original_width original_height)
    (fun target_height =>
  rbind (resize_nearest (target_width p, target_height) img) (fun small =>
  rbind (apply_quantizer q small) (fun quantized =>
  resize_nearest (target_width p * pixel_scale p, target_height * pixel_scale p)
    quantized))).

Lemma pixelate_image_render (w : world) input_path output_path p q img0 ow oh th :
  files w !! input_path = Some (ImageFile img0) ->
  image_size img0 = (ow, oh) -> 0 < ow -> 0 < oh ->
  0 < target_width p -> 0 < pixel_scale p ->
  target_height_of (target_width p) ow oh = Ok th -> 0 < th ->
  quantizer_ready w p q ->
  exists out,
    render p q img0 = Ok out /\
    image_size out = (target_width p * pixel_scale p, th * pixel_scale p) /\
    pixelate_image input_path output_path p w =
      (Ok tt,
       set_files (<[output_path := ImageFile out]> (files w))
                 (note_missing_palette p w)).
Proof.
  intros Hf Hsize How Hoh HW Hs Hth Hpos Hq.
  destruct (pixelate_image_run w input_path output_path p q img0 ow oh th)
    as (small & quantized & enlarged & H1 & H2 & H3 & _ & _ & Hsz & Hrun);
    try done.
  exists enlarged. split; [|done].
  unfold render. rewrite size_adjust, size_convert_rgb, Hsize, Hth. simpl.
  rewrite H1. simpl. rewrite H2. simpl. done.
Qed.

Lemma quantizer_ready_same_lookup (w w' : world) p q :
  (forall path, truthy_path (palette_file p) = Some path ->
                files w' !! path = files w !! path) ->
  quantizer_ready w p q -> quantizer_ready w' p q.
Proof.
  unfold quantizer_ready. intros Hsame.
  destruct (truthy_path (palette_file p)) as [path|]; [|done].
  by rewrite (Hsame path eq_refl).
Qed.


End FrameLoop.

Section FrameLoopClaim.
Context `{lib : Imaging} `{laws : !ImagingLaws}.

Local Open Scope string_scope.
Local Open Scope Z_scope.


End FrameLoopClaim.

(** ** The reference imaging library satisfies the laws *)

Module RefImagingFacts.
Import RefImaging.

Local Open Scope Z_scope.

Lemma half_odd_multiple (x k : nat) :
  (0 < k -> (2 * (((2 * x + 1) * k) / 2) + 1) / (2 * k) = x)%nat.
Proof.
  intros Hk.
  destruct (Nat.Even_or_Odd k) as [[j ->]|[j ->]].
  - replace ((2 * x + 1) * (2 * j))%nat with (2 * ((2 * x + 1) * j))%nat by lia.
    rewrite (Nat.mul_comm 2 ((2 * x + 1) * j)), Nat.div_mul by lia.
    symmetry. apply (Nat.div_unique _ _ _ (2 * j + 1)); lia.
  - replace ((2 * x + 1) * (2 * j + 1))%nat
      with (1 + (2 * x * j + x + j) * 2)%nat by lia.
    rewrite Nat.div_add by lia. simpl (1 / 2)%nat.
    symmetry. apply (Nat.div_unique _ _ _ (2 * j + 1)); lia.
Qed.

(** Reducing by an integer factor samples, in each block, a pixel that came
    from the source pixel the block was made of. *)
Lemma sample_down_up (a k x : nat) :
  (0 < k -> 0 < a -> sample a (a * k) (sample (a * k) a x) = x)%nat.
Proof.
  intros Hk Ha. unfold sample.
  replace ((2 * x + 1) * (a * k))%nat with (((2 * x + 1) * k) * a)%nat by lia.
  rewrite Nat.Div0.div_mul_cancel_r by lia.
  replace (2 * (a * k))%nat with ((2 * k) * a)%nat by lia.
  rewrite Nat.Div0.div_mul_cancel_r by lia.
  by apply half_odd_multiple.
Qed.

Lemma sample_down_bound (a k x : nat) :
  (0 < k -> 0 < a -> x < a -> sample (a * k) a x < a * k)%nat.
Proof.
  intros Hk Ha Hx. unfold sample.
  replace ((2 * x + 1) * (a * k))%nat with (((2 * x + 1) * k) * a)%nat by lia.
  rewrite Nat.Div0.div_mul_cancel_r by lia.
  apply Nat.Div0.div_lt_upper_bound. nia.
Qed.

Lemma lookup_rows (f : nat -> nat -> color) (w h x y : nat) :
  (x < w)%nat -> (y < h)%nat ->
  (map (fun y => map (fun x => f x y) (seq 0 w)) (seq 0 h)) !! y
    ≫= (fun row => row !! x) = Some (f x y).
Proof.
  intros Hx Hy.
  change (map (fun y => map (fun x => f x y) (seq 0 w)) (seq 0 h))
    with ((fun y => (fun x => f x y) <$> seq 0 w) <$> seq 0 h).
  rewrite list_lookup_fmap, lookup_seq_lt by done. simpl.
  rewrite list_lookup_fmap, lookup_seq_lt by done. done.
Qed.

Lemma pixel_at_make_grid f w h x y :
  (x < w)%nat -> (y < h)%nat -> pixel_at (make_grid w h f) x y = f x y.
Proof.
  intros Hx Hy. unfold pixel_at, make_grid. simpl.
  by rewrite lookup_rows.
Qed.

(** A well-formed grid is the grid of its pixels. *)
Lemma grid_of_pixels (g : grid) :
  well_formed_grid g ->
  map (fun y => map (fun x => pixel_at g x y) (seq 0 (gw g))) (seq 0 (gh g))
    = gpx g.
Proof.
  intros [Hlen Hrows].
  apply list_eq. intros y.
  change (map (fun y => map (fun x => pixel_at g x y) (seq 0 (gw g))) (seq 0 (gh g)))
    with ((fun y => (fun x => pixel_at g x y) <$> seq 0 (gw g)) <$> seq 0 (gh g)).
  rewrite list_lookup_fmap.
  destruct (decide (y < gh g)%nat) as [Hy|Hy].
  - rewrite lookup_seq_lt by done. simpl.
    destruct (lookup_lt_is_Some_2 (gpx g) y ltac:(lia)) as [row Hrow].
    rewrite Hrow. f_equal.
    assert (Hw : length row = gw g).
    { rewrite Forall_forall in Hrows. apply Hrows.
      by eapply list_elem_of_lookup_2. }
    apply list_eq. intros x. rewrite list_lookup_fmap.
    destruct (decide (x < gw g)%nat) as [Hx|Hx].
    + rewrite lookup_seq_lt by done. simpl.
      destruct (lookup_lt_is_Some_2 row x ltac:(lia)) as [c Hc].
      unfold pixel_at. rewrite Hrow. simpl. by rewrite Hc.
    + rewrite lookup_seq_ge by lia. simpl.
      symmetry. apply lookup_ge_None. lia.
  - rewrite lookup_seq_ge by lia. simpl.
    symmetry. apply lookup_ge_None. lia.
Qed.

Lemma make_grid_well_formed w h f : well_formed_grid (make_grid w h f).
Proof.
  split; simpl.
  - by rewrite length_map, length_seq.
  - apply Forall_forall. intros row Hrow.
    apply list_elem_of_In, in_map_iff in Hrow as (y & <- & _).
    by rewrite length_map, length_seq.
Qed.

Lemma resize_make_grid sz g g' :
  resize sz g = Ok g' ->
  0 < sz.1 /\ 0 < sz.2 /\ (0 < gw g)%nat /\ (0 < gh g)%nat /\
  g' = make_grid (Z.to_nat sz.1) (Z.to_nat sz.2)
         (fun x y => pixel_at g (sample (gw g) (Z.to_nat sz.1) x)
                                (sample (gh g) (Z.to_nat sz.2) y)).
Proof.
  destruct sz as [w h]. unfold resize. simpl.
  destruct (w <=? 0) eqn:Ew; [discriminate|].
  destruct (h <=? 0) eqn:Eh; [discriminate|].
  destruct (gw g =? 0)%nat eqn:Egw; [discriminate|].
  destruct (gh g =? 0)%nat eqn:Egh; [discriminate|].
  simpl. intros [= <-].
  apply Z.leb_gt in Ew, Eh. apply Nat.eqb_neq in Egw, Egh.
  repeat split; lia.
Qed.

Lemma resize_well_formed sz g g' : resize sz g = Ok g' -> well_formed_grid g'.
Proof.
  intros (_ & _ & _ & _ & ->)%resize_make_grid. apply make_grid_well_formed.
Qed.

Lemma map_pixels_well_formed f g :
  well_formed_grid g -> well_formed_grid (map_pixels f g).
Proof.
  intros [Hlen Hrows]. split; simpl.
  - by rewrite length_map.
  - apply Forall_forall. intros row Hrow.
    apply list_elem_of_In, in_map_iff in Hrow as (row0 & <- & Hin).
    rewrite length_map. rewrite Forall_forall in Hrows.
    apply Hrows. by apply list_elem_of_In.
Qed.

Lemma make_grid_ext w h f f' :
  (forall x y, (x < w)%nat -> (y < h)%nat -> f x y = f' x y) ->
  make_grid w h f = make_grid w h f'.
Proof.
  intros Hf. unfold make_grid. f_equal.
  apply map_ext_in. intros y [_ Hy]%in_seq.
  apply map_ext_in. intros x [_ Hx]%in_seq.
  apply Hf; lia.
Qed.

(** Reducing a nearest-neighbor enlargement by the same integer factor
    gives the grid back. *)
Lemma resize_down_up_grid w h s q e :
  well_formed_grid q -> gsize q = (w, h) -> 0 < w -> 0 < h -> 0 < s ->
  resize (w * s, h * s) q = Ok e ->
  resize (w, h) e = Ok q.
Proof.
  intros Hwf Hsize Hw Hh Hs Hup.
  apply resize_make_grid in Hup as (_ & _ & Hgw & Hgh & ->). simpl in *.
  injection Hsize as Hqw Hqh.
  assert (Ew : Z.to_nat w = gw q) by lia.
  assert (Eh : Z.to_nat h = gh q) by lia.
  assert (Ews : Z.to_nat (w * s) = (gw q * Z.to_nat s)%nat) by lia.
  assert (Ehs : Z.to_nat (h * s) = (gh q * Z.to_nat s)%nat) by lia.
  rewrite Ews, Ehs.
  unfold resize. simpl.
  replace (w <=? 0) with false by (symmetry; apply Z.leb_gt; lia).
  replace (h <=? 0) with false by (symmetry; apply Z.leb_gt; lia).
  replace (gw q * Z.to_nat s =? 0)%nat with false
    by (symmetry; apply Nat.eqb_neq; nia).
  replace (gh q * Z.to_nat s =? 0)%nat with false
    by (symmetry; apply Nat.eqb_neq; nia).
  simpl. f_equal. rewrite Ew, Eh.
  destruct q as [a b px]. simpl in *. f_equal.
  etransitivity;
    [|exact (grid_of_pixels {| gw := a; gh := b; gpx := px |} Hwf)].
  simpl.
  apply map_ext_in. intros y [_ Hy]%in_seq.
  apply map_ext_in. intros x [_ Hx]%in_seq.
  rewrite pixel_at_make_grid
    by (apply sample_down_bound; lia).
  by rewrite !sample_down_up by lia.
Qed.

Lemma dist2_nonneg a b : 0 <= dist2 a b.
Proof.
  destruct a as [[r1 g1] b1], b as [[r2 g2] b2]. simpl.
  pose proof (Z.square_nonneg (r1 - r2)).
  pose proof (Z.square_nonneg (g1 - g2)).
  pose proof (Z.square_nonneg (b1 - b2)). lia.
Qed.

Lemma dist2_self a : dist2 a a = 0.
Proof. destruct a as [[r1 g1] b1]. simpl. lia. Qed.

Lemma dist2_zero a b : dist2 a b = 0 -> a = b.
Proof.
  destruct a as [[r1 g1] b1], b as [[r2 g2] b2]. simpl. intros H.
  pose proof (Z.square_nonneg (r1 - r2)) as Hr.
  pose proof (Z.square_nonneg (g1 - g2)) as Hg.
  pose proof (Z.square_nonneg (b1 - b2)) as Hb.
  assert (Er : (r1 - r2) * (r1 - r2) = 0) by lia.
  assert (Eg : (g1 - g2) * (g1 - g2) = 0) by lia.
  assert (Eb : (b1 - b2) * (b1 - b2) = 0) by lia.
  apply Z.mul_eq_0 in Er, Eg, Eb.
  assert (r1 = r2) by lia. assert (g1 = g2) by lia. assert (b1 = b2) by lia.
  by subst.
Qed.

Lemma nearest_from_spec best palette c :
  let r := nearest_from best palette c in
  (r = best \/ In r palette) /\
  dist2 r c <= dist2 best c /\
  (forall p, In p palette -> dist2 r c <= dist2 p c).
Proof.
  revert best. induction palette as [|p ps IH]; intros best; simpl.
  - split; [by left|]. split; [lia|]. intros ? [].
  - destruct (dist2 p c <? dist2 best c) eqn:E.
    + apply Z.ltb_lt in E.
      destruct (IH p) as (Hin & Hle & Hmin).
      split; [destruct Hin; auto|]. split; [lia|].
      intros p' [<-|Hp']; [lia|auto].
    + apply Z.ltb_ge in E.
      destruct (IH best) as (Hin & Hle & Hmin).
      split; [destruct Hin; auto|]. split; [lia|].
      intros p' [<-|Hp']; [lia|auto].
Qed.

(** Mapping a palette color to the palette gives the same color. *)
Lemma nearest_idempotent palette c :
  nearest palette (nearest palette c) = nearest palette c.
Proof.
  destruct palette as [|best ps]; [done|]. simpl.
  set (r := nearest_from best ps c).
  destruct (nearest_from_spec best ps c) as (Hin & _ & _). fold r in Hin.
  destruct (nearest_from_spec best ps r) as (_ & Hle & Hmin).
  apply dist2_zero.
  pose proof (dist2_nonneg (nearest_from best ps r) r).
  destruct Hin as [Heq|Hin].
  - rewrite <- Heq in Hle at 2. rewrite dist2_self in Hle. lia.
  - specialize (Hmin r Hin). rewrite dist2_self in Hmin. lia.
Qed.

Lemma map_pixels_compose f g0 grid0 :
  map_pixels f (map_pixels g0 grid0) = map_pixels (fun c => f (g0 c)) grid0.
Proof.
  unfold map_pixels. simpl. f_equal.
  rewrite map_map. apply map_ext. intros row. by rewrite map_map.
Qed.

Lemma quantize_to_fixed flat g q :
  quantize_to flat g = Ok q -> quantize_to flat q = Ok q.
Proof.
  unfold quantize_to.
  destruct (unflatten flat) as [|c cs] eqn:Epal; [discriminate|].
  destruct (_ || _); [discriminate|].
  intros [= <-]. f_equal. rewrite map_pixels_compose.
  unfold map_pixels. f_equal.
  apply map_ext. intros row. apply map_ext. intros px.
  apply nearest_idempotent.
Qed.

Lemma unflatten_flatten palette : unflatten (flatten_palette palette) = palette.
Proof.
  induction palette as [|[[r g] b] ps IH]; [done|].
  unfold flatten_palette in *. simpl. by rewrite IH.
Qed.

Lemma flatten_bytes palette :
  Forall byte_color palette ->
  forallb is_byte (flatten_palette palette) = true.
Proof.
  induction 1 as [|[[r g] b] ps (Hr & Hg & Hb) _ IH]; [done|].
  unfold flatten_palette in *. simpl. rewrite IH.
  unfold is_byte.
  repeat (rewrite (proj2 (Z.leb_le _ _)) by lia). done.
Qed.

#[export] Instance laws : ImagingLaws.
Proof.
  split; simpl.
  - done.
  - done.
  - done.
  - done.
  - intros [w h] g g' (Hw & Hh & _ & _ & ->)%resize_make_grid.
    unfold gsize. simpl in *. f_equal; lia.
  - intros w h g Hgw Hgh Hw Hh. unfold resize, gsize in *. simpl in *.
    replace (w <=? 0) with false by (symmetry; apply Z.leb_gt; lia).
    replace (h <=? 0) with false by (symmetry; apply Z.leb_gt; lia).
    replace (gw g =? 0)%nat with false by (symmetry; apply Nat.eqb_neq; lia).
    replace (gh g =? 0)%nat with false by (symmetry; apply Nat.eqb_neq; lia).
    done.
  - intros pal g g'. unfold quantize_to.
    destruct (unflatten pal); [discriminate|].
    destruct (_ || _); [discriminate|]. by intros [= <-].
  - intros palette g Hne Hlen Hbytes. unfold quantize_to.
    rewrite unflatten_flatten, (flatten_bytes _ Hbytes).
    destruct palette as [|c cs]; [done|].
    replace (256 <? length (c :: cs))%nat with false
      by (symmetry; apply Nat.ltb_ge; lia).
    done.
  - intros n g g'. unfold quantize_auto.
    destruct (_ || _); [discriminate|]. by intros [= <-].
  - intros n g Hn. unfold quantize_auto.
    replace (n <? 1) with false by (symmetry; apply Z.ltb_ge; lia).
    replace (256 <? n) with false by (symmetry; apply Z.ltb_ge; lia).
    done.
Qed.

Lemma quantize_to_well_formed flat g g' :
  well_formed_grid g -> quantize_to flat g = Ok g' -> well_formed_grid g'.
Proof.
  intros Hwf. unfold quantize_to.
  destruct (unflatten flat); [discriminate|].
  destruct (_ || _); [discriminate|].
  intros [= <-]. by apply map_pixels_well_formed.
Qed.

#[export] Instance round_trip : ImagingRoundTrip := {|
  well_formed := well_formed_grid;
  well_formed_convert_rgb := fun g H => H;
  well_formed_resize := fun sz g g' _ H => resize_well_formed sz g g' H;
  well_formed_quantize := quantize_to_well_formed;
  resize_convert_rgb := fun sz g g' H => H;
  resize_down_up := resize_down_up_grid;
  quantize_palette_fixed := fun pal g q _ H => quantize_to_fixed pal g q H;
|}.

End RefImagingFacts.

(** ** Running the pipeline on its own output *)

Section Idempotence.
Context `{lib : Imaging} `{laws : !ImagingLaws} `{rt : !ImagingRoundTrip}.

Local Open Scope string_scope.
Local Open Scope Z_scope.


End Idempotence.

(** ** Concrete runs on the reference library *)

Module Runs.
Import RefImaging RefImagingFacts.

Local Open Scope string_scope.
Local Open Scope Z_scope.

Definition newline : string := String PyStr.LF EmptyString.

(** A picture with a gradient, w by h. *)
Definition gradient (w h : nat) : grid :=
  make_grid w h (fun x y => (Z.of_nat (x * 40), Z.of_nat (y * 8), 7)).

Definition plain (W s : Z) (pf : option string) : params :=
  {| target_width := W; palette_size := 4; pixel_scale := s;
     brightness_factor := PyFloat.one; contrast_factor := PyFloat.one;
     palette_file := pf |}.

Definition two_colors : string := "#FFFFFF" ++ newline ++ "000000" ++ newline.


(** An 8 by 7 picture. *)
Definition wide_world : world :=
  world_with [("in.png", ImageFile (gradient 8 7));
              ("pal.txt", TextFile two_colors)].


(** A 4 by 2 picture. *)
Definition small_world : world :=
  world_with [("in.png", ImageFile (gradient 4 2));
              ("pal.txt", TextFile two_colors);
              ("empty.txt", TextFile "")].

(** A file with a line of seven hex digits, one with five, one with
    signs and a space inside, one with four digits. *)
Definition odd_palettes : world :=
  world_with [("seven.txt", TextFile "FFFFFFF");
              ("five.txt", TextFile "fffff");
              ("signs.txt", TextFile "+f-f f");
              ("four.txt", TextFile ("#FFFFFF" ++ newline ++ "ffff"))].

(** A video of three 4 by 2 frames at 24 frames per second, and a palette
    file whose only line cannot be parsed. *)
Definition video_world : world :=
  world_with [("in.mp4", VideoFile fps_24
                 [gradient 4 2; swap_channels (gradient 4 2); gradient 4 2]);
              ("bad.txt", TextFile "zz")].

Lemma two_colors_valid :
  Forall2 valid_line (PyStr.readlines two_colors) [(255, 255, 255); (0, 0, 0)].
Proof.
  change (PyStr.readlines two_colors)
    with ["#FFFFFF" ++ newline; "000000" ++ newline].
  repeat constructor.
  - exists "", "FFFFFF", newline. repeat split; auto.
  - exists "", "000000", newline. repeat split; auto.
Qed.

Lemma ready_without_palette (w : world) W s :
  quantizer_ready w (plain W s None) (MedianCut 4).
Proof. unfold quantizer_ready. simpl. split; [done|lia]. Qed.




(** The product [float(2) * (7 / 8)] is exactly 1.75. *)
Definition float_1_75 : PyFloat.float := S754_finite false 7881299347898368 (-52).

(** C6, witness: an 8 by 7 picture at width 2. *)
Lemma pixelate_image_height_truncates_witness :
  exists out aspect_ratio product v,
    files (pixelate_image "in.png" "out.png" (plain 2 1 None) wide_world).2
      !! "out.png" = Some (ImageFile out) /\
    image_size out = (2 * 1, 1 * 1) /\
    PyFloat.truediv 7 8 = Ok aspect_ratio /\
    PyFloat.int_mul 2 aspect_ratio = Ok product /\
    float_value product = Some v /\
    (inject_Z 1 <= v)%Q /\ (v < inject_Z (1 + 1))%Q.
Proof.
  apply (pixelate_image_height_truncates wide_world "in.png" "out.png"
           (plain 2 1 None) (MedianCut 4) (gradient 8 7) 8 7 1).
  - reflexivity.
  - reflexivity.
  - lia.
  - lia.
  - simpl; lia.
  - simpl; lia.
  - vm_compute; reflexivity.
  - lia.
  - apply ready_without_palette.
Defined.

(** C6, counterexample: for an 8 by 7 picture and target width 2 the
    product is 1.75, which rounds to 2, and the output is 2 by 1. *)
Lemma output_height_not_rounded :
  exists out,
    files (pixelate_image "in.png" "out.png" (plain 2 1 None) wide_world).2
      !! "out.png" = Some (ImageFile out) /\
    image_size out = (2, 1) /\
    rbind (PyFloat.truediv 7 8) (PyFloat.int_mul 2) = Ok float_1_75 /\
    py_round float_1_75 = Ok 2 /\
    image_size out <> (2 * 1, 2 * 1).
Proof.
  destruct (pixelate_image_run wide_world "in.png" "out.png" (plain 2 1 None)
              (MedianCut 4) (gradient 8 7) 8 7 1)
    as (small & quantized & out & _ & _ & _ & _ & _ & Hsize & Hrun);
    try (reflexivity || (simpl; lia) || apply ready_without_palette).
  exists out. split; [rewrite Hrun; simpl; by rewrite lookup_insert_eq|].
  split; [exact Hsize|].
  split; [vm_compute; reflexivity|]. split; [vm_compute; reflexivity|].
  intros H. rewrite Hsize in H. vm_compute in H. discriminate.
Qed.

(** C2, witness: the two-color palette file of the specification, and a
    path that does not exist. *)
Lemma load_palette_valid_or_missing_witness :
  (load_palette_from_file "pal.txt" small_world
     = (Ok (Some [(255, 255, 255); (0, 0, 0)]), small_world) /\
   length [(255, 255, 255); (0, 0, 0)] = length (PyStr.readlines two_colors)) /\
  ((load_palette_from_file "none.txt" small_world).1 = Ok None /\
   (load_palette_from_file "none.txt" small_world).1 <> Ok (Some [])).
Proof.
  split.
  - apply (proj1 (load_palette_valid_or_missing small_world "pal.txt")
             two_colors [(255, 255, 255); (0, 0, 0)]).
    + reflexivity.
    + apply two_colors_valid.
  - apply (proj2 (load_palette_valid_or_missing small_world "none.txt")).
    reflexivity.
Defined.



(** C5, witness. *)
Lemma adjust_identity_witness :
  @adjust imaging (plain 2 2 None) (gradient 4 2) = gradient 4 2.
Proof.
  apply (@adjust_identity imaging (plain 2 2 None) (gradient 4 2)); reflexivity.
Defined.





(** C7, witness: 30 frames per second requested on a 24 fps video. *)
Lemma effective_fps_is_min_witness :
  effective_fps (PyInt 30) (declared_fps video_world "in.mp4") = PyFloat fps_24 /\
  num_gt (effective_fps (PyInt 30) (declared_fps video_world "in.mp4"))
         (PyFloat (declared_fps video_world "in.mp4")) = false /\
  num_le (effective_fps (PyInt 30) (declared_fps video_world "in.mp4"))
         (PyInt 30) = true.
Proof.
  destruct (effective_fps_is_min video_world "in.mp4" "out.mp4"
              (plain 2 2 None) (PyInt 30)) as (_ & Hgt & Hle & _).
  split; [vm_compute; reflexivity|]. split; [exact Hgt|].
  exact (proj2 (Hle eq_refl eq_refl)).
Defined.


(** C10, witness: the palette file cannot be parsed, so the pixelation of
    the first frame raises [ValueError]. *)
Lemma frame_error_cleans_directory_leaks_handle_witness :
  let final := pixelate_video "in.mp4" "out.mp4" (plain 2 2 (Some "bad.txt"))
                 (PyInt 30) video_world in
  final.1 = Raise ValueError /\
  (temp_dir_name 0 ∉ temp_dirs final.2) /\
  (forall path, in_dir (temp_dir_name 0) path = true ->
                files final.2 !! path = None) /\
  handles final.2 !! 1%nat = Some HandleOpen /\
  handles final.2 = [HandleOpen; HandleOpen] /\
  commands final.2 = [].
Proof.
  apply (frame_error_cleans_directory_leaks_handle video_world
           (frame_loop (temp_dir_name 0) (plain 2 2 (Some "bad.txt"))
              (decoded_frames video_world "in.mp4") 0
              (loop_start video_world "in.mp4" (PyInt 30))).2
           "in.mp4" "out.mp4" (plain 2 2 (Some "bad.txt")) (PyInt 30) ValueError).
  rewrite (surjective_pairing (frame_loop _ _ _ _ _)) at 1.
  apply (f_equal (fun r : result nat => (r, _))).
  vm_compute. reflexivity.
Defined.

End Runs.

(** * Further properties of the script *)

(** ** What one run of the image pipeline does to the world *)

Section ImageEffects.
Context `{lib : Imaging}.

Local Open Scope string_scope.
Local Open Scope Z_scope.

Lemma load_palette_files path (w : world) :
  files (load_palette_from_file path w).2 = files w.
Proof.
  unfold load_palette_from_file, open_text.
  destruct (files w !! path) as [[content| |]|]; simpl; try done.
  by destruct (parse_lines _ _).
Qed.

Lemma quantize_step_files p img (w : world) :
  files (quantize_step p img w).2 = files w.
Proof.
  unfold quantize_step, bind, lift.
  destruct (truthy_path _) as [path|]; [|done].
  pose proof (load_palette_files path w) as H.
  destruct (load_palette_from_file path w) as [[[[|c cs]|]|e] w1]; done.
Qed.

Lemma pixelate_image_files (w : world) (input_path output_path : string)
    (p : params) :
  match (pixelate_image input_path output_path p w).1 with
  | Ok _ => exists out,
      files (pixelate_image input_path output_path p w).2
        = <[output_path := ImageFile out]> (files w)
  | Raise _ => files (pixelate_image input_path output_path p w).2 = files w
  end.
Proof.
  unfold pixelate_image, bind, image_open, lift, image_save.
  destruct (files w !! input_path) as [[?|img|? ?]|]; try done.
  destruct (image_size _) as [ow oh].
  destruct (target_height_of _ _ _); [|done].
  destruct (resize_nearest _ _) as [small|]; [|done].
  pose proof (quantize_step_files p small w) as Hq.
  destruct (quantize_step p small w) as [[quantized|e'] w1]; [|done].
  destruct (resize_nearest _ _) as [out|]; [|done].
  exists out. simpl in *. by rewrite Hq.
Qed.

(** X1. A run of [pixelate_image] that raises, for whatever reason, has
    written no file: the save is its last step. *)
Theorem pixelate_image_failure_writes_nothing
    (w : world) (input_path output_path : string) (p : params) (e : exn) :
  (pixelate_image input_path output_path p w).1 = Raise e ->
  files (pixelate_image input_path output_path p w).2 = files w.
Proof.
  intros Hraise.
  pose proof (pixelate_image_files w input_path output_path p) as H.
  rewrite Hraise in H. exact H.
Qed.

(** X2. A run of [pixelate_image] that returns has changed exactly one
    file, the one at [output_path], which now holds an image (whatever was
    there before); decoder handles, temporary directories and the command
    history are as they were. *)
Theorem pixelate_image_writes_one_file
    (w w' : world) (input_path output_path : string) (p : params) :
  pixelate_image input_path output_path p w = (Ok tt, w') ->
  (exists out, files w' = <[output_path := ImageFile out]> (files w)) /\
  (forall path, path <> output_path -> files w' !! path = files w !! path) /\
  same_resources w w'.
Proof.
  intros Hrun.
  pose proof (pixelate_image_resources input_path output_path p w) as Hres.
  pose proof (pixelate_image_files w input_path output_path p) as Hout.
  rewrite Hrun in Hres, Hout. simpl in Hres, Hout.
  split; [exact Hout|]. split; [|exact Hres].
  destruct Hout as [out ->]. intros path Hne. by rewrite lookup_insert_ne.
Qed.

Lemma load_palette_stdout path (w : world) :
  stdout (load_palette_from_file path w).2 =
    match files w !! path with
    | None => (stdout w ++ [PaletteNotFound path])%list
    | Some _ => stdout w
    end.
Proof.
  unfold load_palette_from_file, open_text.
  destruct (files w !! path) as [[content| |]|]; simpl; try done.
  by destruct (parse_lines _ _).
Qed.

Lemma quantize_step_stdout p img (w : world) :
  stdout (quantize_step p img w).2 =
    match truthy_path (palette_file p) with
    | Some path =>
        match files w !! path with
        | None => (stdout w ++ [PaletteNotFound path])%list
        | Some _ => stdout w
        end
    | None => stdout w
    end.
Proof.
  unfold quantize_step, bind, lift.
  destruct (truthy_path _) as [path|]; [|done].
  pose proof (load_palette_stdout path w) as H.
  destruct (load_palette_from_file path w) as [[[[|c cs]|]|e] w1]; done.
Qed.

(** The standard output of a run is that of the start, or that of its
    quantization step. *)
Lemma pixelate_image_stdout_cases (w : world) input_path output_path p :
  stdout (pixelate_image input_path output_path p w).2 = stdout w \/
  exists small,
    stdout (pixelate_image input_path output_path p w).2
      = stdout (quantize_step p small w).2.
Proof.
  unfold pixelate_image, bind, image_open, lift, image_save.
  destruct (files w !! input_path) as [[?|img|? ?]|]; simpl; try (by left).
  destruct (image_size _) as [ow oh].
  destruct (target_height_of _ _ _) as [th|]; simpl; [|by left].
  destruct (resize_nearest _ _) as [small|]; simpl; [|by left].
  right. exists small.
  destruct (quantize_step p small w) as [[quantized|e'] w1]; [|done].
  by destruct (resize_nearest _ _).
Qed.

(** X3. [pixelate_image] prints nothing unless it was given a palette path
    that does not exist; then it prints at most the one diagnostic for that
    path. *)
Theorem pixelate_image_diagnostics
    (w : world) (input_path output_path : string) (p : params) :
  let out := stdout (pixelate_image input_path output_path p w).2 in
  (out = stdout w \/
   exists path, truthy_path (palette_file p) = Some path /\
                files w !! path = None /\
                out = (stdout w ++ [PaletteNotFound path])%list) /\
  (forall path, truthy_path (palette_file p) = Some path ->
                is_Some (files w !! path) -> out = stdout w) /\
  (truthy_path (palette_file p) = None -> out = stdout w).
Proof.
  intros out. subst out.
  destruct (pixelate_image_stdout_cases w input_path output_path p)
    as [-> | [small ->]]; [by auto|].
  rewrite quantize_step_stdout.
  destruct (truthy_path (palette_file p)) as [path|]; [|by auto].
  destruct (files w !! path) eqn:Hf.
  - split; [by left|]. split; [|done]. by intros ? [= <-] _.
  - split; [right; by exists path|]. split; [|done].
    intros ? [= <-] [? Hsome]. congruence.
Qed.

End ImageEffects.

(** ** The computed height, and the numbers a palette line can give *)

Section Numbers.
Context `{lib : Imaging}.

Local Open Scope string_scope.
Local Open Scope Z_scope.

Lemma to_int_nonneg x n :
  nonneg_float x -> PyFloat.to_int x = Ok n -> 0 <= n.
Proof.
  destruct x as [s|s| |s m e]; simpl; try done.
  - by intros _ [= <-].
  - intros -> [= <-]. simpl. destruct (0 <=? e).
    + apply Z.shiftl_nonneg. lia.
    + apply Z.shiftr_nonneg. lia.
Qed.

(** X4. For a positive target width and positive image sizes the height
    the script computes, when it computes one, is never negative: float
    rounding can lose a row but cannot turn the height below zero. *)
Theorem target_height_nonneg (W ow oh th : Z) :
  0 < W -> 0 < ow -> 0 < oh ->
  target_height_of W ow oh = Ok th -> 0 <= th.
Proof.
  intros HW How Hoh. unfold target_height_of.
  destruct (PyFloat.truediv oh ow) as [a|] eqn:Ea; simpl; [|discriminate].
  unfold PyFloat.int_mul.
  destruct (PyFloat.of_int W) as [fw|] eqn:Ew; simpl; [|discriminate].
  intros Hint.
  pose proof (truediv_nonneg _ _ _ Hoh How Ea) as Hna.
  pose proof (of_int_nonneg _ _ HW Ew) as Hnw.
  destruct (mul_nonneg fw a Hnw Hna) as [Hnan|Hnn];
    [rewrite Hnan in Hint; discriminate|].
  by eapply to_int_nonneg.
Qed.


Definition in_component_range (v : Z) : bool := (-15 <=? v) && (v <=? 255).

Definition component_ok (r : result Z) : bool :=
  match r with
  | Ok v => in_component_range v
  | Raise _ => true
  end.

Lemma int16_pair_range a b :
  component_ok (PyStr.int16 (String a (String b EmptyString))) = true.
Proof.
  assert (Hall : forallb (fun a => forallb (fun b =>
            component_ok (PyStr.int16 (String a (String b EmptyString))))
            all_ascii) all_ascii = true) by (vm_compute; reflexivity).
  exact (all_ascii_complete _ (all_ascii_complete _ Hall a) b).
Qed.

Lemma int16_single_range a :
  component_ok (PyStr.int16 (String a EmptyString)) = true.
Proof.
  assert (Hall : forallb (fun a =>
            component_ok (PyStr.int16 (String a EmptyString))) all_ascii = true)
    by (vm_compute; reflexivity).
  exact (all_ascii_complete _ Hall a).
Qed.

Lemma slice_range i tok :
  component_ok (PyStr.int16 (PyStr.slice i (i + 2) tok)) = true.
Proof.
  unfold PyStr.slice. replace (i + 2 - i)%nat with 2%nat by lia.
  revert tok. induction i as [|i IH]; intros tok.
  - destruct tok as [|a [|b rest]]; simpl.
    + done.
    + apply int16_single_range.
    + replace (substring 0 0 rest) with EmptyString by (by destruct rest).
      apply int16_pair_range.
  - destruct tok as [|a rest]; simpl; [done|apply IH].
Qed.

(** X6. Every component of a color the loader accepts lies between -15
    and 255: a slice of two hex digits gives a byte, and the only other
    slices [int(_, 16)] accepts are one digit with a sign or white space.
    So a loaded palette may hold negative components. *)
Theorem parsed_components_range (line : string) (r g b : Z) :
  parse_line line = Ok (r, g, b) ->
  (-15 <= r <= 255) /\ (-15 <= g <= 255) /\ (-15 <= b <= 255).
Proof.
  unfold parse_line, parse_token. generalize (palette_token line) as tok.
  intros tok.
  pose proof (slice_range 0 tok) as H0.
  pose proof (slice_range 2 tok) as H2.
  pose proof (slice_range 4 tok) as H4.
  simpl Nat.add in *.
  destruct (PyStr.int16 (PyStr.slice 0 2 tok)) as [r'|]; simpl; [|discriminate].
  destruct (PyStr.int16 (PyStr.slice 2 4 tok)) as [g'|]; simpl; [|discriminate].
  destruct (PyStr.int16 (PyStr.slice 4 6 tok)) as [b'|]; simpl; [|discriminate].
  intros [= <- <- <-]. unfold component_ok, in_component_range in *.
  apply andb_true_iff in H0 as [? ?], H2 as [? ?], H4 as [? ?]. lia.
Qed.

(** The parameters with another palette size. *)
Definition with_palette_size (n : Z) (p : params) : params :=
  {| target_width := target_width p; palette_size := n;
     pixel_scale := pixel_scale p; brightness_factor := brightness_factor p;
     contrast_factor := contrast_factor p; palette_file := palette_file p |}.

(** X7. When the palette file loads to at least one color, [palette_size]
    plays no part: runs that differ only in it are the same run. *)
Theorem palette_size_ignored_with_palette
    (w : world) (input_path output_path path : string) (p : params) (n : Z)
    (c : color) (cs : list color) :
  truthy_path (palette_file p) = Some path ->
  (load_palette_from_file path w).1 = Ok (Some (c :: cs)) ->
  pixelate_image input_path output_path (with_palette_size n p) w =
  pixelate_image input_path output_path p w.
Proof.
  intros Hp Hload. unfold pixelate_image, bind, image_open, lift.
  destruct (files w !! input_path) as [[?|img|? ?]|]; try done.
  replace (adjust (with_palette_size n p) (convert_rgb img))
    with (adjust p (convert_rgb img)) by done.
  destruct (image_size _) as [ow oh]. simpl target_width.
  destruct (target_height_of _ _ _) as [th|]; [|done].
  destruct (resize_nearest _ _) as [small|]; [|done].
  replace (quantize_step (with_palette_size n p) small w)
    with (quantize_step p small w); [done|].
  unfold quantize_step, bind.
  change (palette_file (with_palette_size n p)) with (palette_file p).
  rewrite Hp.
  destruct (load_palette_from_file path w) as [r w1]. simpl in Hload.
  by rewrite Hload.
Qed.

End Numbers.

(** ** Frame names *)

Section FrameNames.

Local Open Scope string_scope.

(** The frame number a name part holds, read as a decimal numeral. *)
Definition read_index (s : string) : option nat :=
  option_map Nat.of_uint (NilEmpty.uint_of_string s).

Lemma length_string_of_uint d :
  String.length (NilEmpty.string_of_uint d) = Decimal.nb_digits d.
Proof. induction d; simpl; auto. Qed.

Lemma nb_digits_leading_zeros k d :
  Decimal.nb_digits (Nat.iter k Decimal.D0 d) = (k + Decimal.nb_digits d)%nat.
Proof. induction k as [|k IH]; simpl; [done|]. by rewrite IH. Qed.

(** X8. [f"{n:05d}"] has at least five characters, all digits, and reads
    back as n, whatever n is: past 99999 frames the names get longer but
    still name their frame, and the picture and the pixelated image of
    two frames never share a path. *)
Theorem frame_names_round_trip (temp_dir : string) (n m : nat) :
  read_index (format_05d n) = Some n /\
  (5 <= String.length (format_05d n))%nat /\
  all_digits (format_05d n) = true /\
  frame_path temp_dir n <> pixelated_path temp_dir m /\
  (frame_path temp_dir n = frame_path temp_dir m -> n = m) /\
  (pixelated_path temp_dir n = pixelated_path temp_dir m -> n = m).
Proof.
  split; [|split; [|split; [|split; [|split]]]].
  - unfold read_index, format_05d. rewrite NilEmpty.usu. simpl.
    by rewrite of_uint_leading_zeros, Unsigned.of_to.
  - unfold format_05d.
    rewrite length_string_of_uint, nb_digits_leading_zeros. lia.
  - apply format_05d_digits.
  - apply frame_path_not_pixelated.
  - apply frame_path_inj.
  - apply pixelated_path_inj.
Qed.

End FrameNames.

(** ** What the video pipeline does to files, handles and commands *)

Section VideoEffects.
Context `{lib : Imaging} `{sub : !Subprocess}.

Local Open Scope string_scope.

Lemma pixelate_image_other_paths (w : world) input_path output_path p path :
  path <> output_path ->
  files (pixelate_image input_path output_path p w).2 !! path = files w !! path.
Proof.
  intros Hne.
  pose proof (pixelate_image_files w input_path output_path p) as H.
  destruct (pixelate_image input_path output_path p w).1.
  - destruct H as [out ->]. by rewrite lookup_insert_ne.
  - by rewrite H.
Qed.

Lemma in_dir_frame_path temp_dir n : in_dir temp_dir (frame_path temp_dir n) = true.
Proof. apply in_dir_path_join. Qed.

Lemma in_dir_pixelated_path temp_dir n :
  in_dir temp_dir (pixelated_path temp_dir n) = true.
Proof. apply in_dir_path_join. Qed.

(** The frame loop, whether it returns or raises, changes files in the
    temporary directory only. *)
Lemma frame_loop_only_in_dir temp_dir p frames n (w : world) path :
  in_dir temp_dir path = false ->
  files (frame_loop temp_dir p frames n w).2 !! path = files w !! path.
Proof.
  intros Hout. revert n w.
  induction frames as [|frame rest IH]; intros n w; simpl; [done|].
  unfold bind at 1. simpl. unfold bind at 1.
  set (w1 := set_files _ w).
  assert (H1 : files w1 !! path = files w !! path).
  { subst w1. simpl. apply lookup_insert_ne. intros <-.
    by rewrite in_dir_frame_path in Hout. }
  pose proof (pixelate_image_other_paths w1 (frame_path temp_dir n)
                (pixelated_path temp_dir n) p path) as H2.
  destruct (pixelate_image _ _ p w1) as [[[]|e] w2]; simpl in *.
  - rewrite IH, H2, H1; [done|]. intros ->.
    by rewrite in_dir_pixelated_path in Hout.
  - rewrite H2, H1; [done|]. intros ->.
    by rewrite in_dir_pixelated_path in Hout.
Qed.

Lemma cleanup_keeps temp_dir (w : world) path :
  in_dir temp_dir path = false ->
  files (cleanup temp_dir w) !! path = files w !! path.
Proof.
  intros Hout. simpl.
  destruct (files w !! path) as [f|] eqn:Hf.
  - apply map_lookup_filter_Some. split; [done|]. simpl. by rewrite Hout.
  - apply map_lookup_filter_None. by left.
Qed.

(** X9. When the frame loop raises, [pixelate_video] leaves every file
    outside its temporary directory exactly as it was: the input video
    and anything at the output path included. *)
Theorem video_failure_leaves_files
    (w w5 : world) (input_path output_path : string) (p : params)
    (fps : pynum) (e : exn) (path : string) :
  frame_loop (temp_dir_name (next_temp w)) p (decoded_frames w input_path) 0
    (loop_start w input_path fps) = (Raise e, w5) ->
  in_dir (temp_dir_name (next_temp w)) path = false ->
  files (pixelate_video input_path output_path p fps w).2 !! path
    = files w !! path.
Proof.
  intros Hloop Hout.
  pose proof (frame_loop_only_in_dir (temp_dir_name (next_temp w)) p
                (decoded_frames w input_path) 0 (loop_start w input_path fps)
                path Hout) as Hfiles.
  rewrite pixelate_video_unfold. cbv zeta. rewrite Hloop in *. simpl snd in *.
  rewrite cleanup_keeps by done. exact Hfiles.
Qed.

Lemma release_loop_handle (l : list handle_state) (st : handle_state) :
  <[S (length l) := HandleReleased]> ((l ++ [st]) ++ [st])%list
    = (l ++ [st; HandleReleased])%list.
Proof.
  rewrite <- app_assoc. simpl.
  rewrite insert_app_r_alt by lia.
  by replace (S (length l) - length l)%nat with 1%nat by lia.
Qed.

(** X10. When the frame loop returns, [pixelate_video] runs the encoder
    exactly once and returns or raises [CalledProcessError] by its exit
    status alone; either way the temporary directory is gone with its
    files, files outside it are as the encoder left them, the loop's
    decoder handle is released, and the handle the frame rate probe opened
    is left as it was created. *)
Theorem video_completion
    (w w5 : world) (input_path output_path : string) (p : params)
    (fps : pynum) (n : nat) :
  let temp_dir := temp_dir_name (next_temp w) in
  let command :=
    ffmpeg_command (effective_fps fps (declared_fps w input_path))
      temp_dir output_path in
  frame_loop temp_dir p (decoded_frames w input_path) 0
    (loop_start w input_path fps) = (Ok n, w5) ->
  let status := (run_process command (files w5)).1 in
  let left_by_encoder := (run_process command (files w5)).2 in
  let final := pixelate_video input_path output_path p fps w in
  final.1 = (if (status =? 0)%Z then Ok tt else Raise CalledProcessError) /\
  commands final.2 = (commands w ++ [command])%list /\
  (temp_dir ∉ temp_dirs final.2) /\
  (forall path, in_dir temp_dir path = true -> files final.2 !! path = None) /\
  (forall path, in_dir temp_dir path = false ->
                files final.2 !! path = left_by_encoder !! path) /\
  handles final.2
    = (handles w ++ [new_handle w input_path; HandleReleased])%list.
Proof.
  intros temp_dir command Hloop status left_by_encoder final.
  subst final status left_by_encoder.
  pose proof (frame_loop_resources temp_dir p (decoded_frames w input_path) 0
                (loop_start w input_path fps)) as (Hh & _ & _ & Hc).
  rewrite pixelate_video_unfold. cbv zeta. fold temp_dir command.
  rewrite Hloop in *. simpl in Hh, Hc.
  unfold run_checked. simpl.
  destruct (run_process command (files w5)) as [status fs]. simpl.
  set (w7 := {| files := fs; stdout := stdout w5;
                handles := <[loop_handle w:=HandleReleased]> (handles w5);
                temp_dirs := temp_dirs w5; next_temp := next_temp w5;
                commands := (commands w5 ++ [command])%list |}).
  assert (Hfinal : (if (status =? 0)%Z then (Ok tt, w7) else (Raise CalledProcessError, w7))
                   = ((if (status =? 0)%Z then Ok tt else Raise CalledProcessError), w7))
    by (by destruct (status =? 0)%Z).
  rewrite Hfinal. simpl fst. simpl snd.
  destruct (cleanup_removes temp_dir w7) as [Hdir Hin].
  split; [done|]. split; [simpl; by rewrite Hc|].
  split; [exact Hdir|]. split; [exact Hin|].
  split; [intros path Hout; by rewrite cleanup_keeps|].
  simpl. rewrite Hh. apply release_loop_handle.
Qed.


End VideoEffects.

(** ** Diagnostics of the frame loop *)

Section LoopDiagnostics.
Context `{lib : Imaging} `{laws : !ImagingLaws}.

Local Open Scope string_scope.
Local Open Scope Z_scope.

(** What one quantization step prints in a world: the diagnostic of a
    palette path that does not exist, or nothing. *)
Definition palette_diagnostic (p : params) (w : world) : list output_line :=
  match truthy_path (palette_file p) with
  | Some path =>
      match files w !! path with
      | None => [PaletteNotFound path]
      | Some _ => []
      end
  | None => []
  end.

Lemma stdout_note_missing_palette p (w : world) :
  stdout (note_missing_palette p w) = (stdout w ++ palette_diagnostic p w)%list.
Proof.
  unfold note_missing_palette, palette_diagnostic.
  destruct (truthy_path _) as [path|]; [|by rewrite app_nil_r].
  destruct (files w !! path); [by rewrite app_nil_r|done].
Qed.

Lemma palette_diagnostic_same_lookup p (w w' : world) :
  (forall path, truthy_path (palette_file p) = Some path ->
                files w' !! path = files w !! path) ->
  palette_diagnostic p w' = palette_diagnostic p w.
Proof.
  unfold palette_diagnostic. intros Hsame.
  destruct (truthy_path (palette_file p)) as [path|]; [|done].
  by rewrite (Hsame path eq_refl).
Qed.

(** X12. The palette file is looked for once per frame: when it does not
    exist, a frame loop that is otherwise set to succeed prints the
    "not found" diagnostic once for every frame of the video, and nothing
    else. *)
Theorem frame_loop_diagnostics temp_dir p q ow oh th frames n (w : world) :
  Forall (fun frame => image_size frame = (ow, oh)) frames ->
  0 < ow -> 0 < oh -> 0 < target_width p -> 0 < pixel_scale p ->
  target_height_of (target_width p) ow oh = Ok th -> 0 < th ->
  (forall path, truthy_path (palette_file p) = Some path ->
                in_dir temp_dir path = false) ->
  quantizer_ready w p q ->
  stdout (frame_loop temp_dir p frames n w).2 =
    (stdout w ++ concat (replicate (length frames) (palette_diagnostic p w)))%list.
Proof.
  intros Hsizes How Hoh HW Hs Hth Hpos Hpal. revert n w.
  induction Hsizes as [|frame rest Hsize _ IH]; intros n w Hq.
  - simpl. by rewrite app_nil_r.
  - simpl frame_loop. unfold bind at 1. simpl. unfold bind at 1.
    set (w1 := set_files _ w).
    assert (Hnot : forall path name,
              truthy_path (palette_file p) = Some path ->
              path <> path_join temp_dir name).
    { intros path name Hp ->. specialize (Hpal _ Hp).
      by rewrite in_dir_path_join in Hpal. }
    assert (Hsame1 : forall path, truthy_path (palette_file p) = Some path ->
                                  files w1 !! path = files w !! path).
    { intros path Hp. simpl. apply lookup_insert_ne.
      intros Heq. by eapply Hnot. }
    assert (Hq1 : quantizer_ready w1 p q)
      by (by eapply quantizer_ready_same_lookup).
    destruct (pixelate_image_render w1 (frame_path temp_dir n)
                (pixelated_path temp_dir n) p q (cvt_bgr2rgb frame) ow oh th)
      as (out & _ & _ & Hrun); try done.
    { simpl. by rewrite lookup_insert_eq. }
    { by rewrite size_cvt_bgr2rgb. }
    rewrite Hrun. set (w2 := set_files _ _).
    assert (Hsame2 : forall path, truthy_path (palette_file p) = Some path ->
                                  files w2 !! path = files w !! path).
    { intros path Hp. subst w2. simpl.
      rewrite lookup_insert_ne by (intros Heq; by eapply Hnot).
      by apply Hsame1. }
    assert (Hq2 : quantizer_ready w2 p q)
      by (by eapply quantizer_ready_same_lookup).
    rewrite (IH (S n) w2 Hq2).
    rewrite (palette_diagnostic_same_lookup p w w2 Hsame2).
    replace (stdout w2) with (stdout w ++ palette_diagnostic p w)%list.
    + simpl. by rewrite <- app_assoc.
    + subst w2. simpl. rewrite stdout_note_missing_palette.
      by rewrite (palette_diagnostic_same_lookup p w w1 Hsame1).
Qed.

End LoopDiagnostics.

(** ** More on the palette loader *)

Section LoaderOrder.
Context `{lib : Imaging}.

Local Open Scope string_scope.
Local Open Scope Z_scope.

Lemma parse_lines_Ok lines acc palette :
  parse_lines lines acc = Ok palette ->
  exists colors,
    palette = (acc ++ colors)%list /\
    Forall2 (fun line rgb => parse_line line = Ok rgb) lines colors.
Proof.
  revert acc. induction lines as [|line lines IH]; intros acc; simpl.
  - intros [= <-]. exists []. split; [by rewrite app_nil_r|constructor].
  - destruct (parse_line line) as [rgb|e] eqn:E; simpl; [|discriminate].
    intros H. apply IH in H as (colors & -> & Hall).
    exists (rgb :: colors). split; [by rewrite <- app_assoc|by constructor].
Qed.

(** X13. Whatever the lines are, a load that returns a palette returns one
    color per line of the file, in file order, each the color its own line
    parses to; the world is as it was. *)
Theorem loaded_palette_follows_lines
    (w w' : world) (path content : string) (palette : list color) :
  files w !! path = Some (TextFile content) ->
  load_palette_from_file path w = (Ok (Some palette), w') ->
  w' = w /\
  Forall2 (fun line rgb => parse_line line = Ok rgb)
    (PyStr.readlines content) palette /\
  length palette = length (PyStr.readlines content).
Proof.
  intros Hf. rewrite (load_palette_text _ _ _ Hf).
  destruct (parse_lines _ _) as [pal|e] eqn:E; [|discriminate].
  intros [= <- <-]. apply parse_lines_Ok in E as (colors & -> & Hall).
  simpl. split; [done|]. split; [done|].
  symmetry. by eapply Forall2_length.
Qed.

(** [n] number signs. *)
Fixpoint hashes (n : nat) : string :=
  match n with
  | O => EmptyString
  | S n => String "#" (hashes n)
  end.

Lemma rstrip_cons c s :
  PyStr.is_space c = false -> PyStr.rstrip (String c s) = String c (PyStr.rstrip s).
Proof. intros Hc. simpl. rewrite Hc. by destruct (PyStr.rstrip s). Qed.

Lemma rstrip_hashes n s :
  PyStr.rstrip (hashes n ++ s) = hashes n ++ PyStr.rstrip s.
Proof.
  induction n as [|n IH]; [done|].
  change (hashes (S n) ++ s) with (String "#" (hashes n ++ s)).
  rewrite rstrip_cons by reflexivity. by rewrite IH.
Qed.

Lemma lstrip_char_hashes n s :
  PyStr.lstrip_char "#" (hashes n ++ s) = PyStr.lstrip_char "#" s.
Proof. induction n as [|n IH]; [done|]. exact IH. Qed.

Lemma lstrip_char_no_start c s :
  PyStr.startswith c s = false -> PyStr.lstrip_char c s = s.
Proof.
  destruct s as [|d r]; [done|]. simpl. by intros ->.
Qed.

Lemma palette_token_hashes n line :
  PyStr.lstrip line = line ->
  palette_token (hashes n ++ line) = palette_token line.
Proof.
  intros Hl. destruct n as [|n]; [done|].
  unfold palette_token, PyStr.strip. rewrite Hl.
  change (PyStr.lstrip (hashes (S n) ++ line)) with (hashes (S n) ++ line).
  rewrite rstrip_hashes.
  change (PyStr.startswith "#" (hashes (S n) ++ PyStr.rstrip line)) with true.
  cbv iota. rewrite lstrip_char_hashes.
  destruct (PyStr.startswith "#" (PyStr.rstrip line)) eqn:Hs; [done|].
  by apply lstrip_char_no_start.
Qed.

(** X14. Number signs before a color are all dropped, however many there
    are: a line that does not begin with white space parses to the same
    result with any number of [#] put in front of it. *)
Theorem leading_hashes_ignored (n : nat) (line : string) :
  PyStr.lstrip line = line ->
  parse_line (hashes n ++ line) = parse_line line.
Proof.
  intros Hl. unfold parse_line. by rewrite palette_token_hashes.
Qed.

End LoaderOrder.

(** ** The example at the end of the script *)

Section Example.

Local Open Scope string_scope.

(** [s.split(sep)] for a one-character separator: the pieces between the
    occurrences of [sep], empty pieces included; never the empty list. *)
Fixpoint split_on (sep : ascii) (s : string) : list string :=
  match s with
  | EmptyString => [EmptyString]
  | String c rest =>
      if bool_decide (c = sep) then EmptyString :: split_on sep rest
      else
        match split_on sep rest with
        | piece :: pieces => String c piece :: pieces
        | [] => [String c EmptyString]
        end
  end.

(** [f"{input_image_path.split('.')[0]}_pixelated.png"]; [split] never
    returns the empty list ([split_on_nonempty]), so the index [0] is always
    there. *)
Definition example_output_path (input_image_path : string) : string :=
  match split_on "." input_image_path with
  | stem :: _ => stem ++ "_pixelated.png"
  | [] => "_pixelated.png"
  end.

Fixpoint has_char (c : ascii) (s : string) : bool :=
  match s with
  | String d r => bool_decide (d = c) || has_char c r
  | EmptyString => false
  end.

Lemma split_on_nonempty sep s : split_on sep s <> [].
Proof.
  destruct s as [|c r]; [done|]. simpl.
  destruct (bool_decide _); [done|]. by destruct (split_on sep r).
Qed.

Lemma split_on_join sep s :
  String.concat (String sep EmptyString) (split_on sep s) = s.
Proof.
  induction s as [|c r IH]; [done|]. simpl.
  pose proof (split_on_nonempty sep r) as Hne.
  destruct (split_on sep r) as [|piece pieces]; [done|].
  rewrite <- IH.
  destruct (bool_decide (c = sep)) eqn:Hc.
  - by apply bool_decide_eq_true in Hc as ->.
  - by destruct pieces.
Qed.

Lemma split_on_first sep pre post :
  has_char sep pre = false ->
  exists pieces, split_on sep (pre ++ String sep post) = pre :: pieces.
Proof.
  induction pre as [|c r IH]; simpl.
  - intros _. rewrite bool_decide_eq_true_2 by done. by eexists.
  - intros H. apply orb_false_elim in H as [Hc Hr].
    rewrite Hc. destruct (IH Hr) as [pieces ->]. by eexists.
Qed.

Lemma split_on_none sep s :
  has_char sep s = false -> split_on sep s = [s].
Proof.
  induction s as [|c r IH]; [done|]. simpl.
  intros H. apply orb_false_elim in H as [Hc Hr].
  by rewrite Hc, (IH Hr).
Qed.

(** The first piece is a prefix of the string that is followed by nothing
    or by the separator. *)
Lemma split_on_head sep s :
  exists stem pieces rest,
    split_on sep s = stem :: pieces /\ s = stem ++ rest /\
    (rest = EmptyString \/ exists r, rest = String sep r).
Proof.
  induction s as [|c r IH]; simpl.
  - exists EmptyString, [], EmptyString. by auto.
  - destruct (bool_decide (c = sep)) eqn:Hc.
    + apply bool_decide_eq_true in Hc as ->.
      exists EmptyString, (split_on sep r), (String sep r). split; [done|]. split; [done|].
      right. by eexists.
    + destruct IH as (stem & pieces & rest & -> & -> & Hrest).
      exists (String c stem), pieces, rest. by auto.
Qed.

(** X15. The output name of the example is cut at the first dot of the
    input path, not at its extension: a dot in a directory name drops the
    rest of the path, and a path without a dot is kept whole. *)
Theorem example_output_cut_at_first_dot (stem rest : string) :
  has_char "." stem = false ->
  example_output_path (stem ++ String "." rest) = stem ++ "_pixelated.png" /\
  example_output_path stem = stem ++ "_pixelated.png".
Proof.
  intros Hstem. unfold example_output_path. split.
  - by destruct (split_on_first "." stem rest Hstem) as [pieces ->].
  - by rewrite (split_on_none _ _ Hstem).
Qed.

(** X16. The example never names its input as its output, whatever the
    input path is. *)
Theorem example_output_is_not_input (input_image_path : string) :
  example_output_path input_image_path <> input_image_path.
Proof.
  unfold example_output_path.
  destruct (split_on_head "." input_image_path)
    as (stem & pieces & rest & -> & Heq & Hrest).
  intros H. rewrite Heq in H. apply append_inv_head in H.
  destruct Hrest as [-> | [r ->]]; discriminate.
Qed.

End Example.

(** ** What the video pipeline prints *)

Section VideoOutput.
Context `{lib : Imaging} `{sub : !Subprocess}.

Local Open Scope string_scope.

Definition is_palette_diagnostic (l : output_line) : bool :=
  match l with
  | PaletteNotFound _ => true
  | FpsReport _ _ => false
  end.

Lemma pixelate_image_stdout_grows (w : world) input_path output_path p :
  exists lines,
    stdout (pixelate_image input_path output_path p w).2
      = (stdout w ++ lines)%list /\
    forallb is_palette_diagnostic lines = true.
Proof.
  destruct (pixelate_image_stdout_cases w input_path output_path p)
    as [-> | [small ->]]; [exists []; by rewrite app_nil_r|].
  rewrite quantize_step_stdout.
  destruct (truthy_path (palette_file p)) as [path|];
    [|exists []; by rewrite app_nil_r].
  destruct (files w !! path);
    [exists []; by rewrite app_nil_r | by exists [PaletteNotFound path]].
Qed.

Lemma frame_loop_stdout_grows temp_dir p frames n (w : world) :
  exists lines,
    stdout (frame_loop temp_dir p frames n w).2 = (stdout w ++ lines)%list /\
    forallb is_palette_diagnostic lines = true.
Proof.
  revert n w. induction frames as [|frame rest IH]; intros n w.
  - exists []. by rewrite app_nil_r.
  - simpl frame_loop. unfold bind at 1. simpl. unfold bind at 1.
    set (w1 := set_files _ w).
    destruct (pixelate_image_stdout_grows w1 (frame_path temp_dir n)
                (pixelated_path temp_dir n) p) as (l1 & H1 & Hl1).
    destruct (pixelate_image _ _ p w1) as [[[]|e] w2]; simpl in H1.
    + destruct (IH (S n) w2) as (l2 & H2 & Hl2).
      exists (l1 ++ l2)%list. rewrite H2, H1. simpl.
      split; [by rewrite <- app_assoc|].
      by rewrite forallb_app, Hl1, Hl2.
    + exists l1. by split.
Qed.

(** X17. All that [pixelate_video] ever prints, whether it returns or
    raises: first the line with the detected and the used frame rate, once,
    then only palette-not-found diagnostics. *)
Theorem video_output_lines
    (w : world) (input_path output_path : string) (p : params) (fps : pynum) :
  exists lines,
    stdout (pixelate_video input_path output_path p fps w).2 =
      (stdout w ++
       FpsReport (declared_fps w input_path)
         (effective_fps fps (declared_fps w input_path)) :: lines)%list /\
    forallb is_palette_diagnostic lines = true.
Proof.
  rewrite pixelate_video_unfold. cbv zeta.
  destruct (frame_loop_stdout_grows (temp_dir_name (next_temp w)) p
              (decoded_frames w input_path) 0 (loop_start w input_path fps))
    as (lines & Hout & Hlines).
  exists lines. split; [|exact Hlines].
  destruct (frame_loop _ _ _ _ _) as [[n|e] w5]; simpl in Hout.
  - unfold run_checked. simpl.
    destruct (run_process _ _) as [status f]. simpl.
    destruct (status =? 0)%Z; simpl; rewrite Hout; by rewrite <- app_assoc.
  - simpl. rewrite Hout. by rewrite <- app_assoc.
Qed.

End VideoOutput.

(** ** Further concrete runs on the reference library *)

Module MoreRuns.
Import RefImaging RefImagingFacts Runs.

Local Open Scope string_scope.
Local Open Scope Z_scope.


(** X1, witness: the input does not exist. *)
Lemma pixelate_image_failure_writes_nothing_witness :
  files (pixelate_image "none.png" "out.png" (plain 2 2 None) small_world).2
    = files small_world.
Proof.
  apply (pixelate_image_failure_writes_nothing small_world "none.png" "out.png"
           (plain 2 2 None) FileNotFoundError).
  vm_compute. reflexivity.
Defined.

(** X2, witness: a 4 by 2 picture pixelated over itself. *)
Lemma pixelate_image_writes_one_file_witness :
  let w' := (pixelate_image "in.png" "in.png" (plain 2 2 None) small_world).2 in
  (exists out, files w' = <[ "in.png" := ImageFile out ]> (files small_world)) /\
  (forall path, path <> "in.png" -> files w' !! path = files small_world !! path) /\
  same_resources small_world w'.
Proof.
  apply (pixelate_image_writes_one_file small_world _ "in.png" "in.png"
           (plain 2 2 None)).
  rewrite (surjective_pairing (pixelate_image _ _ _ _)) at 1.
  apply (f_equal (fun r : result unit => (r, _))).
  vm_compute. reflexivity.
Defined.

(** X4, witness. *)
Lemma target_height_nonneg_witness : 0 <= 116.
Proof.
  apply (target_height_nonneg 27 3 13 116); [lia | lia | lia |].
  vm_compute. reflexivity.
Defined.


(** X6, witness: signs in a palette line. *)
Lemma parsed_components_range_witness :
  (-15 <= 15 <= 255) /\ (-15 <= -15 <= 255) /\ (-15 <= 15 <= 255).
Proof.
  apply (parsed_components_range "+f-f f" 15 (-15) 15). reflexivity.
Defined.

(** X7, witness: the two-color palette with palette sizes 64 and 4. *)
Lemma palette_size_ignored_with_palette_witness :
  pixelate_image "in.png" "out.png"
    (with_palette_size 64 (plain 2 2 (Some "pal.txt"))) small_world =
  pixelate_image "in.png" "out.png" (plain 2 2 (Some "pal.txt")) small_world.
Proof.
  apply (palette_size_ignored_with_palette small_world "in.png" "out.png"
           "pal.txt" (plain 2 2 (Some "pal.txt")) 64 (255, 255, 255) [(0, 0, 0)]).
  - reflexivity.
  - vm_compute. reflexivity.
Defined.

(** X9, witness: the input video after a run that fails on its first
    frame. *)
Lemma video_failure_leaves_files_witness :
  files (pixelate_video "in.mp4" "out.mp4" (plain 2 2 (Some "bad.txt"))
           (PyInt 30) video_world).2 !! "in.mp4"
    = files video_world !! "in.mp4".
Proof.
  apply (video_failure_leaves_files video_world
           (frame_loop (temp_dir_name 0) (plain 2 2 (Some "bad.txt"))
              (decoded_frames video_world "in.mp4") 0
              (loop_start video_world "in.mp4" (PyInt 30))).2
           "in.mp4" "out.mp4" (plain 2 2 (Some "bad.txt")) (PyInt 30) ValueError).
  - rewrite (surjective_pairing (frame_loop _ _ _ _ _)) at 1.
    apply (f_equal (fun r : result nat => (r, _))).
    vm_compute. reflexivity.
  - reflexivity.
Defined.

(** X10, witness: the three-frame video, encoded. *)
Lemma video_completion_witness :
  let final := pixelate_video "in.mp4" "out.mp4" (plain 2 2 None)
                 (PyInt 30) video_world in
  final.1 = Ok tt /\
  handles final.2 = [HandleOpen; HandleReleased] /\
  commands final.2 =
    [ffmpeg_command (PyFloat fps_24) (temp_dir_name 0) "out.mp4"].
Proof.
  destruct (video_completion video_world
              (frame_loop (temp_dir_name 0) (plain 2 2 None)
                 (decoded_frames video_world "in.mp4") 0
                 (loop_start video_world "in.mp4" (PyInt 30))).2
              "in.mp4" "out.mp4" (plain 2 2 None) (PyInt 30) 3)
    as (Hres & Hcmd & _ & _ & _ & Hh).
  - rewrite (surjective_pairing (frame_loop _ _ _ _ _)) at 1.
    apply (f_equal (fun r : result nat => (r, _))).
    vm_compute. reflexivity.
  - split; [exact Hres|]. split; [exact Hh|exact Hcmd].
Defined.


(** X12, witness: three frames and a palette path that does not exist give
    three diagnostics. *)
Lemma frame_loop_diagnostics_witness :
  stdout (frame_loop (temp_dir_name 0) (plain 2 2 (Some "none.txt"))
            (decoded_frames video_world "in.mp4") 0 video_world).2 =
    [PaletteNotFound "none.txt"; PaletteNotFound "none.txt";
     PaletteNotFound "none.txt"].
Proof.
  apply (frame_loop_diagnostics (temp_dir_name 0) (plain 2 2 (Some "none.txt"))
           (MedianCut 4) 4 2 1 (decoded_frames video_world "in.mp4") 0
           video_world).
  - repeat constructor.
  - lia.
  - lia.
  - simpl; lia.
  - simpl; lia.
  - vm_compute. reflexivity.
  - lia.
  - intros path Hpath. injection Hpath as <-. reflexivity.
  - unfold quantizer_ready. simpl. split; [reflexivity|lia].
Defined.

(** X13, witness: a line with signs, which the loader accepts. *)
Lemma loaded_palette_follows_lines_witness :
  odd_palettes = odd_palettes /\
  Forall2 (fun line rgb => parse_line line = Ok rgb)
    (PyStr.readlines "+f-f f") [(15, -15, 15)] /\
  length [(15, -15, 15)] = length (PyStr.readlines "+f-f f").
Proof.
  apply (loaded_palette_follows_lines odd_palettes odd_palettes "signs.txt"
           "+f-f f" [(15, -15, 15)]); reflexivity.
Defined.

(** X14, witness: two number signs before a color. *)
Lemma leading_hashes_ignored_witness :
  parse_line (hashes 2 ++ "fff2e5") = parse_line "fff2e5".
Proof.
  apply (leading_hashes_ignored 2 "fff2e5"). reflexivity.
Defined.

(** X15, witness: a dot in the directory name. *)
Lemma example_output_cut_at_first_dot_witness :
  example_output_path ("my" ++ String "." "dir/cat.jpg") = "my" ++ "_pixelated.png" /\
  example_output_path "my" = "my" ++ "_pixelated.png".
Proof.
  apply (example_output_cut_at_first_dot "my" "dir/cat.jpg"). reflexivity.
Defined.

End MoreRuns.
